(** * A shallow embedding of the Todo API (main.py)

    The service keeps one module-level dict, [todos], from id strings to
    [Todo] records, and five handlers that read or mutate it.  The handlers
    are embedded as computations in a state-and-exception monad over that
    dict; the routing layer (request-body validation, dependency
    resolution, status codes, writing the response out) is embedded
    around them as [app]. *)

From Stdlib Require Import String Ascii List ZArith NArith Bool Lia.
From Stdlib Require Import SpecFloat.
Import ListNotations.
Open Scope string_scope.

(** ** Values that cross the HTTP boundary *)

#[local] Set Warnings "-register-all".

(** The result of [json.loads] on a request body.  An object is kept as the
    list of its members in textual order. *)
Inductive json : Type :=
| JNull
| JBool (b : bool)
| JInt (n : Z)
| JFloat (f : spec_float)
| JStr (s : string)
| JArr (items : list json)
| JObj (members : list (string * json)).

(** Member lookup in a parsed object: the dict built by [json.loads] keeps
    the last value of a repeated name. *)
Fixpoint obj_get (k : string) (members : list (string * json)) : option json :=
  match members with
  | [] => None
  | (k', v) :: rest =>
      match obj_get k rest with
      | Some w => Some w
      | None => if String.eqb k k' then Some v else None
      end
  end.

(** A Python [str] is kept as the bytes of its UTF-8 encoding; a lone
    surrogate, which [json.loads] lets through from an escape such as
    [\ud800] and which UTF-8 proper refuses, is kept in its three-byte
    generalised form, ED A0..BF 80..BF. *)
Definition surrogate_start (c c' : ascii) : bool :=
  (N_of_ascii c =? 237)%N &&
  (160 <=? N_of_ascii c')%N && (N_of_ascii c' <=? 191)%N.

(** [s.encode("utf-8")] succeeds: the str holds no lone surrogate. *)
Fixpoint utf8_encodable (s : string) : bool :=
  match s with
  | EmptyString => true
  | String c s' =>
      match s' with
      | EmptyString => true
      | String c' _ => negb (surrogate_start c c') && utf8_encodable s'
      end
  end.

(** A float that is neither NaN nor an infinity. *)
Definition float_finite (f : spec_float) : bool :=
  match f with
  | S754_zero _ | S754_finite _ _ _ => true
  | S754_infinity _ | S754_nan => false
  end.

(** The value can be written back as a JSON response body, which is done
    with [allow_nan=False] and then encoded as UTF-8: no NaN, no infinity,
    and no lone surrogate in a string or a member name.  A member whose
    name comes again later in the object is not part of the parsed dict and
    does not count. *)
Fixpoint json_renderable (j : json) : bool :=
  match j with
  | JNull | JBool _ | JInt _ => true
  | JFloat f => float_finite f
  | JStr s => utf8_encodable s
  | JArr items => forallb json_renderable items
  | JObj members =>
      (fix members_renderable (l : list (string * json)) : bool :=
         match l with
         | [] => true
         | (k, v) :: rest =>
             match obj_get k rest with
             | Some _ => true
             | None => utf8_encodable k && json_renderable v
             end && members_renderable rest
         end) members
  end.

(** [datetime.datetime]: a naive local timestamp. *)
Record datetime : Type := mkDatetime {
  year : Z; month : Z; day : Z;
  hour : Z; minute : Z; second : Z; microsecond : Z
}.

(** [uuid.UUID]: a 128-bit integer. *)
Record UUID : Type := mkUUID { uuid_int : N }.

Definition hex_digit (n : N) : ascii :=
  match n with
  | 0%N => "0" | 1%N => "1" | 2%N => "2" | 3%N => "3"
  | 4%N => "4" | 5%N => "5" | 6%N => "6" | 7%N => "7"
  | 8%N => "8" | 9%N => "9" | 10%N => "a" | 11%N => "b"
  | 12%N => "c" | 13%N => "d" | 14%N => "e" | _ => "f"
  end%char.

(** ['%0wx' % n] for [n < 16^w]: [w] lowercase hexadecimal digits. *)
Fixpoint hex_fixed (w : nat) (n : N) : string :=
  match w with
  | O => ""
  | S w' => hex_fixed w' (n / 16) ++ String (hex_digit (n mod 16)) ""
  end.

(** [str(u)] for a UUID [u]: the 8-4-4-4-12 form of its 32 hex digits. *)
Definition str_UUID (u : UUID) : string :=
  let hex := hex_fixed 32 (uuid_int u) in
  substring 0 8 hex ++ "-" ++ substring 8 4 hex ++ "-" ++
  substring 12 4 hex ++ "-" ++ substring 16 4 hex ++ "-" ++
  substring 20 12 hex.

(** ** Pydantic models *)

(** [class TodoCreate(BaseModel)].  [model_fields_set] is the set of field
    names that were given explicitly when the instance was built. *)
Record TodoCreate : Type := mkTodoCreate {
  tc_title : string;
  tc_description : option string;
  tc_priority : option Z;
  model_fields_set : list string
}.

(** [class Todo(TodoCreate)]. *)
Record Todo : Type := mkTodo {
  title : string;
  description : option string;
  priority : option Z;
  id : string;
  created_at : datetime;
  completed : bool
}.

(** Declared defaults: [description = None], [priority = 1],
    [completed = False]. *)
Definition default_description : option string := None.
Definition default_priority : option Z := Some 1%Z.
Definition default_completed : bool := false.

(** The dict returned by [model_dump] on a [TodoCreate]: each of the three
    keys is either absent ([None]) or bound to a field value. *)
Record dumped : Type := mkDumped {
  d_title : option string;
  d_description : option (option string);
  d_priority : option (option Z)
}.

Definition is_set (name : string) (m : TodoCreate) : bool :=
  existsb (String.eqb name) (model_fields_set m).

(** [m.model_dump()]: every field. *)
Definition model_dump (m : TodoCreate) : dumped :=
  {| d_title := Some (tc_title m);
     d_description := Some (tc_description m);
     d_priority := Some (tc_priority m) |}.

(** [m.model_dump(exclude_unset=True)]: only the fields in
    [model_fields_set]. *)
Definition model_dump_exclude_unset (m : TodoCreate) : dumped :=
  {| d_title := if is_set "title" m then Some (tc_title m) else None;
     d_description :=
       if is_set "description" m then Some (tc_description m) else None;
     d_priority :=
       if is_set "priority" m then Some (tc_priority m) else None |}.

(** ** Exceptions and results *)

(** One entry of a validation error: where it is, and the input it was
    raised on, which the error body of a 422 response repeats (the whole
    object for a missing member, the member's value for a wrong type). *)
Inductive verror : Type :=
| Missing (loc : string) (input : json)
| StringType (loc : string) (input : json)
| IntType (loc : string) (input : json)
| ModelType (input : json).

Definition verror_input (err : verror) : json :=
  match err with
  | Missing _ input | StringType _ input | IntType _ input
  | ModelType input => input
  end.

Inductive exn : Type :=
| HTTPException (status_code : Z) (detail : string)
| RequestValidationError (errors : list verror)
| ValidationError (missing : list string)
| KeyError (key : string).

Inductive result (A : Type) : Type :=
| Ok (a : A)
| Raise (e : exn).
Arguments Ok {A} a.
Arguments Raise {A} e.

Definition HTTP_200_OK : Z := 200.
Definition HTTP_201_CREATED : Z := 201.
Definition HTTP_204_NO_CONTENT : Z := 204.
Definition HTTP_404_NOT_FOUND : Z := 404.
Definition HTTP_422_UNPROCESSABLE_ENTITY : Z := 422.
Definition HTTP_500_INTERNAL_SERVER_ERROR : Z := 500.

(** [Todo(id=.., created_at=.., [completed=..,] **kw)]: a key absent from
    the keyword arguments takes the declared default; [title] has none and
    is required. *)
Definition Todo_init (id_ : string) (created_at_ : datetime)
    (completed_ : option bool) (kw : dumped) : result Todo :=
  match d_title kw with
  | None => Raise (ValidationError ["title"])
  | Some t =>
      Ok {| title := t;
            description :=
              match d_description kw with
              | Some d => d
              | None => default_description
              end;
            priority :=
              match d_priority kw with
              | Some p => p
              | None => default_priority
              end;
            id := id_;
            created_at := created_at_;
            completed :=
              match completed_ with
              | Some c => c
              | None => default_completed
              end |}
  end.

(** ** The store: a Python dict, in insertion order *)

Section Dict.
Context {V : Type}.

Definition dict : Type := list (string * V).

(** [d.get(k)] *)
Fixpoint dict_get (k : string) (d : dict) : option V :=
  match d with
  | [] => None
  | (k', v) :: d' => if String.eqb k k' then Some v else dict_get k d'
  end.

(** [d[k] = v]: an existing key keeps its position, a new one goes last. *)
Fixpoint dict_set (k : string) (v : V) (d : dict) : dict :=
  match d with
  | [] => [(k, v)]
  | (k', v') :: d' =>
      if String.eqb k k' then (k, v) :: d' else (k', v') :: dict_set k v d'
  end.

(** [d.pop(k)]: the value and the dict without the key; [None] stands for
    the [KeyError] of a missing key. *)
Fixpoint dict_pop (k : string) (d : dict) : option (V * dict) :=
  match d with
  | [] => None
  | (k', v') :: d' =>
      if String.eqb k k' then Some (v', d')
      else match dict_pop k d' with
           | Some (v, d'') => Some (v, (k', v') :: d'')
           | None => None
           end
  end.

(** [list(d.values())] *)
Definition dict_values (d : dict) : list V := map snd d.

Definition dict_keys (d : dict) : list string := map fst d.
End Dict.
Arguments dict V : clear implicits.

(** [todos = {}] *)
Definition store : Type := dict Todo.
Definition todos_init : store := [].

(** ** The handler monad: state over [todos], with exceptions *)

Definition M (A : Type) : Type := store -> result A * store.

Definition ret {A} (a : A) : M A := fun s => (Ok a, s).

Definition bind {A B} (m : M A) (f : A -> M B) : M B :=
  fun s =>
    match m s with
    | (Ok a, s') => f a s'
    | (Raise e, s') => (Raise e, s')
    end.

Definition raise {A} (e : exn) : M A := fun s => (Raise e, s).

Definition lift {A} (r : result A) : M A := fun s => (r, s).

Declare Scope handler_scope.
Delimit Scope handler_scope with handler.
Notation "x <- m ;; k" := (bind m (fun x => k))
  (at level 100, m at next level, right associativity) : handler_scope.
Notation "m ;;; k" := (bind m (fun _ => k))
  (at level 100, right associativity) : handler_scope.
Open Scope handler_scope.

Definition todos_get (k : string) : M (option Todo) :=
  fun s => (Ok (dict_get k s), s).

Definition todos_set (k : string) (v : Todo) : M unit :=
  fun s => (Ok tt, dict_set k v s).

Definition todos_pop (k : string) : M Todo :=
  fun s =>
    match dict_pop k s with
    | Some (v, s') => (Ok v, s')
    | None => (Raise (KeyError k), s)
    end.

Definition todos_values : M (list Todo) :=
  fun s => (Ok (dict_values s), s).

(** ** The handlers of main.py *)

(** Truth value of a model instance: [BaseModel] defines neither
    [__bool__] nor [__len__], so every instance is true; only the [None]
    of a missing key is false. *)
Definition truthy (o : option Todo) : bool :=
  match o with
  | Some _ => true
  | None => false
  end.

Definition not_found_detail (todo_id : string) : string :=
  "Todo with ID " ++ todo_id ++ " not found".

Definition get_todo_by_id (todo_id : string) : M Todo :=
  todo <- todos_get todo_id ;;
  match todo with
  | Some t =>
      if negb (truthy todo)
      then raise (HTTPException HTTP_404_NOT_FOUND (not_found_detail todo_id))
      else ret t
  | None => raise (HTTPException HTTP_404_NOT_FOUND (not_found_detail todo_id))
  end.

(** [uuid4] and [now] are what [uuid.uuid4()] and [datetime.now()] return
    during the call. *)
Definition create_todo (uuid4 : UUID) (now : datetime) (todo : TodoCreate)
    : M Todo :=
  let todo_id := str_UUID uuid4 in
  new_todo <- lift (Todo_init todo_id now None (model_dump todo)) ;;
  todos_set todo_id new_todo ;;;
  ret new_todo.

Definition list_todos : M (list Todo) := todos_values.

Definition get_todo (todo : Todo) : M Todo := ret todo.

Definition update_todo (todo_id : string) (update_data : TodoCreate)
    (todo : Todo) : M Todo :=
  updated_todo <-
    lift (Todo_init (id todo) (created_at todo) (Some (completed todo))
            (model_dump_exclude_unset update_data)) ;;
  todos_set todo_id updated_todo ;;;
  ret updated_todo.

Definition delete_todo (todo : Todo) : M unit :=
  todos_pop (id todo) ;;;
  ret tt.

(** The root endpoint's static payload. *)
Definition root : M (list (string * string)) :=
  ret [("message", "Welcome to the Todo API");
       ("docs", "/docs");
       ("redoc", "/redoc")].

(** ** The routing layer *)

(** What a route hands back before it is serialised to JSON. *)
Inductive content : Type :=
| CTodo (t : Todo)
| CTodoList (l : list Todo)
| CObject (fields : list (string * string))
| CDetail (detail : string)
| CErrors (errors : list verror)
| CInternalError
| CEmpty.

Record Response : Type := mkResponse {
  status : Z;
  body : content
}.

(** The two values a create request draws from its environment. *)
Record env : Type := mkEnv {
  uuid4 : UUID;
  now : datetime
}.

Inductive request : Type :=
| POST_todos (payload : json)
| GET_todos
| GET_todo (todo_id : string)
| PATCH_todo (todo_id : string) (payload : json)
| DELETE_todo (todo_id : string)
| GET_root.

Definition is_some {A} (o : option A) : bool :=
  match o with
  | Some _ => true
  | None => false
  end.

Definition field_errors {A} (r : verror + A) : list verror :=
  match r with
  | inl e => [e]
  | inr _ => []
  end.

(** ** Serialising a response *)

(** A record can be serialised through [response_model=Todo]: its three
    string fields can be encoded; integers, booleans and timestamps always
    can. *)
Definition Todo_renderable (t : Todo) : bool :=
  utf8_encodable (title t) &&
  match description t with
  | Some d => utf8_encodable d
  | None => true
  end &&
  utf8_encodable (id t).

(** The body of a response can be written out.  The detail of a 404 is
    built from the path parameter alone, which is decoded from the URL and
    holds no lone surrogate. *)
Definition content_renderable (c : content) : bool :=
  match c with
  | CTodo t => Todo_renderable t
  | CTodoList l => forallb Todo_renderable l
  | CObject fields =>
      forallb (fun kv => utf8_encodable (fst kv) && utf8_encodable (snd kv))
        fields
  | CErrors errs => forallb (fun err => json_renderable (verror_input err)) errs
  | CDetail _ | CInternalError | CEmpty => true
  end.

(** Writing the response out happens after the handler has returned, and
    so after any write to the store: a body that cannot be written turns
    the answer into a 500. *)
Definition serialise (resp : Response) : Response :=
  if content_renderable (body resp) then resp
  else mkResponse HTTP_500_INTERNAL_SERVER_ERROR CInternalError.

Section Routing.
(** The validation library's lax coercion to [int] of a value that is
    neither an integer literal nor null (numeric strings, integral
    floats, ...).  Its table is not part of the repository, so it is a
    parameter of the embedding. *)
Variable int_lax : json -> option Z.

(** [str]: only a JSON string. *)
Definition validate_str (loc : string) (v : json) : verror + string :=
  match v with
  | JStr s => inr s
  | _ => inl (StringType loc v)
  end.

(** [Optional[str]] *)
Definition validate_optional_str (loc : string) (v : json)
    : verror + option string :=
  match v with
  | JNull => inr None
  | JStr s => inr (Some s)
  | _ => inl (StringType loc v)
  end.

(** [Optional[int]] *)
Definition validate_optional_int (loc : string) (v : json)
    : verror + option Z :=
  match v with
  | JNull => inr None
  | JInt n => inr (Some n)
  | _ =>
      match int_lax v with
      | Some n => inr (Some n)
      | None => inl (IntType loc v)
      end
  end.

(** Validation of a request body against [TodoCreate]: [title] is
    required, the other two fields fall back to their defaults, members
    with any other name are ignored, and the names that were present are
    recorded in [model_fields_set]. *)
Definition validate_TodoCreate (payload : json) : result TodoCreate :=
  match payload with
  | JObj members =>
      let title_ :=
        match obj_get "title" members with
        | Some v => validate_str "title" v
        | None => inl (Missing "title" payload)
        end in
      let description_ :=
        match obj_get "description" members with
        | Some v => validate_optional_str "description" v
        | None => inr default_description
        end in
      let priority_ :=
        match obj_get "priority" members with
        | Some v => validate_optional_int "priority" v
        | None => inr default_priority
        end in
      match title_, description_, priority_ with
      | inr t, inr d, inr p =>
          Ok {| tc_title := t;
                tc_description := d;
                tc_priority := p;
                model_fields_set :=
                  filter (fun k => is_some (obj_get k members))
                    ["title"; "description"; "priority"] |}
      | _, _, _ =>
          Raise (RequestValidationError
                   (field_errors title_ ++ field_errors description_ ++
                    field_errors priority_)%list)
      end
  | JNull => Raise (RequestValidationError [Missing "body" JNull])
  | _ => Raise (RequestValidationError [ModelType payload])
  end.

(** Turning a handler's outcome into the response that is to be written
    out: the route's declared status code on success, the exception's own
    code for an [HTTPException], 422 for a rejected request body, 500 for
    anything else that escapes the handler. *)
Definition respond {A} (success : Z) (render : A -> content) (m : M A)
    : store -> Response * store :=
  fun s =>
    match m s with
    | (Ok a, s') => (mkResponse success (render a), s')
    | (Raise (HTTPException c d), s') => (mkResponse c (CDetail d), s')
    | (Raise (RequestValidationError errs), s') =>
        (mkResponse HTTP_422_UNPROCESSABLE_ENTITY (CErrors errs), s')
    | (Raise _, s') =>
        (mkResponse HTTP_500_INTERNAL_SERVER_ERROR CInternalError, s')
    end.

(** The routes.  A [Depends(get_todo_by_id)] parameter is resolved, and
    may raise, before the request body is validated. *)
Definition route (e : env) (r : request) : store -> Response * store :=
  match r with
  | POST_todos payload =>
      respond HTTP_201_CREATED CTodo
        (todo <- lift (validate_TodoCreate payload) ;;
         create_todo (uuid4 e) (now e) todo)
  | GET_todos =>
      respond HTTP_200_OK CTodoList list_todos
  | GET_todo todo_id =>
      respond HTTP_200_OK CTodo
        (todo <- get_todo_by_id todo_id ;;
         get_todo todo)
  | PATCH_todo todo_id payload =>
      respond HTTP_200_OK CTodo
        (todo <- get_todo_by_id todo_id ;;
         update_data <- lift (validate_TodoCreate payload) ;;
         update_todo todo_id update_data todo)
  | DELETE_todo todo_id =>
      respond HTTP_204_NO_CONTENT (fun _ : unit => CEmpty)
        (todo <- get_todo_by_id todo_id ;;
         delete_todo todo)
  | GET_root =>
      respond HTTP_200_OK CObject root
  end.

(** The application: the route runs, then its response is written out. *)
Definition app (e : env) (r : request) : store -> Response * store :=
  fun s =>
    let (resp, s') := route e r s in
    (serialise resp, s').

(** A session: requests served one after the other. *)
Fixpoint serve (reqs : list (env * request)) (s : store)
    : list Response * store :=
  match reqs with
  | [] => ([], s)
  | (e, r) :: rest =>
      let (resp, s') := app e r s in
      let (resps, s'') := serve rest s' in
      (resp :: resps, s'')
  end.
End Routing.

(** The coercion that accepts nothing beyond integer literals and null;
    the concrete examples below run under it, and none of them reaches
    it. *)
Definition int_exact : json -> option Z := fun _ => None.

(** [create_todo] called once per argument triple, in order. *)
Fixpoint create_all (args : list (UUID * datetime * TodoCreate))
    : M (list Todo) :=
  match args with
  | [] => ret []
  | (u, t, c) :: rest =>
      new_todo <- create_todo u t c ;;
      others <- create_all rest ;;
      ret (new_todo :: others)
  end.

(** ** Well-formed stores *)

(** Keys are unique, as in any dict, and every record sits under its own
    id. *)
Definition store_inv (s : store) : Prop :=
  NoDup (dict_keys s) /\ Forall (fun kv => id (snd kv) = fst kv) s.

(** The stores some session can produce from the empty one. *)
Inductive reachable (int_lax : json -> option Z) : store -> Prop :=
| reach_init : reachable int_lax todos_init
| reach_step e r s :
    reachable int_lax s -> reachable int_lax (snd (app int_lax e r s)).

(** ** Closed forms and predicates used in the statements *)

(** The record [create_todo] builds from a validated body. *)
Definition new_record (u : UUID) (t : datetime) (m : TodoCreate) : Todo :=
  {| title := tc_title m;
     description := tc_description m;
     priority := tc_priority m;
     id := str_UUID u;
     created_at := t;
     completed := default_completed |}.

(** The record [update_todo] builds from the stored record and a validated
    body: what the body set, and the declared default for the rest. *)
Definition replacement (todo : Todo) (m : TodoCreate) : Todo :=
  {| title := tc_title m;
     description :=
       if is_set "description" m then tc_description m
       else default_description;
     priority :=
       if is_set "priority" m then tc_priority m else default_priority;
     id := id todo;
     created_at := created_at todo;
     completed := completed todo |}.

(** The merge the specification describes for an update: a field present
    in the body is overwritten, an absent one keeps the stored value. *)
Definition spec_partial_update (todo : Todo) (m : TodoCreate) : Todo :=
  {| title := if is_set "title" m then tc_title m else title todo;
     description :=
       if is_set "description" m then tc_description m
       else description todo;
     priority :=
       if is_set "priority" m then tc_priority m else priority todo;
     id := id todo;
     created_at := created_at todo;
     completed := completed todo |}.

(** The body is an object whose [title] member is a string. *)
Definition has_str_title (payload : json) : bool :=
  match payload with
  | JObj members =>
      match obj_get "title" members with
      | Some (JStr _) => true
      | _ => false
      end
  | _ => false
  end.

(** [description] is absent, null or a string. *)
Definition description_ok (members : list (string * json)) : bool :=
  match obj_get "description" members with
  | None | Some JNull | Some (JStr _) => true
  | Some _ => false
  end.

(** [priority] is absent, null, an integer, or a value the lax coercion
    takes. *)
Definition priority_ok (int_lax : json -> option Z)
    (members : list (string * json)) : bool :=
  match obj_get "priority" members with
  | None | Some JNull | Some (JInt _) => true
  | Some v => is_some (int_lax v)
  end.

(** ** Sample data for the concrete instances *)

Definition uuid_a : UUID := mkUUID 324969006592305634633390616021200786553.
Definition uuid_b : UUID := mkUUID 206272091258351605472433297239838763547.
Definition id_a : string := "f47ac10b-58cc-4372-a567-0e02b2c3d479".
Definition id_b : string := "9b2e8f4a-1c3d-4e5f-8a7b-6c5d4e3f2a1b".
Definition clock_a : datetime := mkDatetime 2024 5 17 9 30 0 125000.
Definition clock_b : datetime := mkDatetime 2024 5 17 9 31 12 4000.
Definition env_a : env := mkEnv uuid_a clock_a.
Definition env_b : env := mkEnv uuid_b clock_b.

(** [{"title": "A", "description": "d", "priority": 2}] *)
Definition body_A : json :=
  JObj [("title", JStr "A"); ("description", JStr "d"); ("priority", JInt 2)].

(** [{"title": "B"}] and the model it validates to. *)
Definition body_B : json := JObj [("title", JStr "B")].
Definition model_B : TodoCreate :=
  {| tc_title := "B"; tc_description := None; tc_priority := Some 1%Z;
     model_fields_set := ["title"] |}.

(** The record stored by a create request with [body_A] under [env_a],
    and the store holding just that record. *)
Definition todo_A : Todo :=
  {| title := "A"; description := Some "d"; priority := Some 2%Z;
     id := id_a; created_at := clock_a; completed := false |}.
Definition store_A : store :=
  snd (app int_exact env_a (POST_todos body_A) todos_init).

(** ** Further notions used in the statements *)

(** The key a request can write to: the path id of an update or a delete,
    the id drawn for a create; the reading routes have none. *)
Definition written_key (e : env) (r : request) : option string :=
  match r with
  | POST_todos _ => Some (str_UUID (uuid4 e))
  | PATCH_todo todo_id _ => Some todo_id
  | DELETE_todo todo_id => Some todo_id
  | GET_todos | GET_todo _ | GET_root => None
  end.

(** The status codes a route is written to answer with: the one its
    decorator declares (200 when it declares none), 404 where it depends on
    [get_todo_by_id], 422 where it takes a request body. *)
Definition declared_statuses (r : request) : list Z :=
  match r with
  | POST_todos _ => [HTTP_201_CREATED; HTTP_422_UNPROCESSABLE_ENTITY]
  | GET_todos => [HTTP_200_OK]
  | GET_todo _ => [HTTP_200_OK; HTTP_404_NOT_FOUND]
  | PATCH_todo _ _ =>
      [HTTP_200_OK; HTTP_404_NOT_FOUND; HTTP_422_UNPROCESSABLE_ENTITY]
  | DELETE_todo _ => [HTTP_204_NO_CONTENT; HTTP_404_NOT_FOUND]
  | GET_root => [HTTP_200_OK]
  end.

(** Every character of the string is ASCII. *)
Fixpoint all_ascii (s : string) : bool :=
  match s with
  | EmptyString => true
  | String c s' => (N_of_ascii c <? 128)%N && all_ascii s'
  end.

(** The one-character str [\ud800], a lone surrogate, as [json.loads]
    yields it for the body text ["\ud800"]. *)
Definition lone_surrogate : string :=
  String (ascii_of_N 237) (String (ascii_of_N 160)
    (String (ascii_of_N 128) EmptyString)).

(** * Facts about dicts *)

Section DictFacts.
Context {V : Type}.
Implicit Types (d : dict V) (k : string) (v : V).

Lemma dict_get_set_eq k v d : dict_get k (dict_set k v d) = Some v.
Proof.
  induction d as [|[k' v'] d IH]; simpl.
  - now rewrite String.eqb_refl.
  - destruct (String.eqb k k') eqn:E; simpl.
    + now rewrite String.eqb_refl.
    + now rewrite E.
Qed.

Lemma dict_get_set_ne k k' v d :
  k <> k' -> dict_get k' (dict_set k v d) = dict_get k' d.
Proof.
  intros Hne. induction d as [|[k0 v0] d IH]; simpl.
  - destruct (String.eqb_spec k' k); congruence.
  - destruct (String.eqb_spec k k0); simpl.
    + subst. destruct (String.eqb_spec k' k0); congruence.
    + destruct (String.eqb_spec k' k0); auto.
Qed.

Lemma dict_get_None k d : dict_get k d = None <-> ~ In k (dict_keys d).
Proof.
  induction d as [|[k' v'] d IH]; simpl.
  - tauto.
  - destruct (String.eqb_spec k k').
    + split; [discriminate | intros H; exfalso; apply H; auto].
    + rewrite IH. split; [intros H [E | I]; congruence | tauto].
Qed.

Lemma dict_get_In k v d : dict_get k d = Some v -> In (k, v) d.
Proof.
  induction d as [|[k' v'] d IH]; simpl; [discriminate |].
  destruct (String.eqb_spec k k').
  - intros [= ->]. subst. now left.
  - auto.
Qed.

Lemma dict_In_get k v d :
  NoDup (dict_keys d) -> In (k, v) d -> dict_get k d = Some v.
Proof.
  induction d as [|[k' v'] d IH]; simpl; [tauto |].
  intros Hnd [E | I].
  - inversion E; subst. now rewrite String.eqb_refl.
  - inversion Hnd as [|? ? Hni Hnd']; subst.
    destruct (String.eqb_spec k k').
    + subst. exfalso. apply Hni. apply (in_map fst) in I. exact I.
    + auto.
Qed.

Lemma dict_set_fresh k v d :
  dict_get k d = None -> dict_set k v d = (d ++ [(k, v)])%list.
Proof.
  induction d as [|[k' v'] d IH]; simpl; [reflexivity |].
  destruct (String.eqb k k'); [discriminate |].
  intros H. now rewrite IH.
Qed.

Lemma dict_set_keys k v d :
  dict_keys (dict_set k v d) =
  match dict_get k d with
  | Some _ => dict_keys d
  | None => (dict_keys d ++ [k])%list
  end.
Proof.
  induction d as [|[k' v'] d IH]; simpl; [reflexivity |].
  destruct (String.eqb_spec k k'); simpl.
  - now subst.
  - rewrite IH. now destruct (dict_get k d).
Qed.

Lemma dict_set_NoDup k v d :
  NoDup (dict_keys d) -> NoDup (dict_keys (dict_set k v d)).
Proof.
  intros Hnd. rewrite dict_set_keys.
  destruct (dict_get k d) eqn:E; [exact Hnd |].
  apply dict_get_None in E.
  apply NoDup_rev in Hnd. rewrite <- (rev_involutive (dict_keys d ++ [k])%list).
  apply NoDup_rev. rewrite rev_app_distr. simpl.
  constructor; [| exact Hnd].
  now rewrite <- in_rev.
Qed.

Lemma dict_set_In k v d x : In x (dict_set k v d) -> x = (k, v) \/ In x d.
Proof.
  induction d as [|[k' v'] d IH]; simpl.
  - intros [E | []]. now left.
  - destruct (String.eqb k k'); simpl.
    + intros [E | I]; auto.
    + intros [E | I]; auto. destruct (IH I); auto.
Qed.

Lemma dict_pop_Some k v d :
  dict_get k d = Some v -> exists d', dict_pop k d = Some (v, d').
Proof.
  induction d as [|[k' v'] d IH]; simpl; [discriminate |].
  destruct (String.eqb k k').
  - intros [= ->]. now exists d.
  - intros H. destruct (IH H) as [d' ->]. now eexists.
Qed.

(** A successful pop takes out one entry, the first under the key, and
    leaves every other entry where it was. *)
Lemma dict_pop_split k v d d' :
  dict_pop k d = Some (v, d') ->
  exists l1 l2,
    (d = l1 ++ (k, v) :: l2)%list /\ (d' = l1 ++ l2)%list /\
    ~ In k (dict_keys l1).
Proof.
  revert d'. induction d as [|[k' v'] d IH]; simpl; [discriminate |].
  intros d'. destruct (String.eqb_spec k k').
  - intros [= -> ->]. subst. exists [], d'. simpl. tauto.
  - destruct (dict_pop k d) as [[v0 d0]|] eqn:E; [| discriminate].
    intros [= -> <-].
    destruct (IH d0 eq_refl) as (l1 & l2 & -> & -> & Hni).
    exists ((k', v') :: l1), l2. simpl. intuition congruence.
Qed.

Lemma dict_pop_get_ne k k' v d d' :
  dict_pop k d = Some (v, d') -> k' <> k -> dict_get k' d' = dict_get k' d.
Proof.
  revert d'. induction d as [|[k0 v0] d IH]; simpl; [discriminate |].
  intros d'. destruct (String.eqb_spec k k0).
  - intros [= -> ->] Hne. subst. destruct (String.eqb_spec k' k0); congruence.
  - destruct (dict_pop k d) as [[v1 d1]|] eqn:E; [| discriminate].
    intros [= -> <-] Hne. simpl.
    destruct (String.eqb k' k0); auto.
Qed.

Lemma dict_pop_get_eq k v d d' :
  NoDup (dict_keys d) -> dict_pop k d = Some (v, d') -> dict_get k d' = None.
Proof.
  intros Hnd Hpop.
  destruct (dict_pop_split _ _ _ _ Hpop) as (l1 & l2 & -> & -> & Hni).
  apply dict_get_None. unfold dict_keys in *.
  rewrite map_app in *. simpl in Hnd.
  apply NoDup_remove_2 in Hnd. exact Hnd.
Qed.

Lemma dict_pop_NoDup k v d d' :
  NoDup (dict_keys d) -> dict_pop k d = Some (v, d') -> NoDup (dict_keys d').
Proof.
  intros Hnd Hpop.
  destruct (dict_pop_split _ _ _ _ Hpop) as (l1 & l2 & -> & -> & Hni).
  unfold dict_keys in *. rewrite map_app in *. simpl in Hnd.
  now apply NoDup_remove_1 in Hnd.
Qed.
End DictFacts.

(** * Facts about the handlers *)

Lemma get_todo_by_id_found todo_id s t :
  dict_get todo_id s = Some t -> get_todo_by_id todo_id s = (Ok t, s).
Proof.
  intros H. unfold get_todo_by_id, bind, todos_get. now rewrite H.
Qed.

Lemma get_todo_by_id_missing todo_id s :
  dict_get todo_id s = None ->
  get_todo_by_id todo_id s =
  (Raise (HTTPException HTTP_404_NOT_FOUND (not_found_detail todo_id)), s).
Proof.
  intros H. unfold get_todo_by_id, bind, todos_get. now rewrite H.
Qed.

(** The constructor never fails on a full dump. *)
Lemma create_todo_eq u t m s :
  create_todo u t m s =
  (Ok (new_record u t m), dict_set (str_UUID u) (new_record u t m) s).
Proof. reflexivity. Qed.

(** Nor on a partial dump that holds the title. *)
Lemma update_todo_eq todo_id m todo s :
  is_set "title" m = true ->
  update_todo todo_id m todo s =
  (Ok (replacement todo m), dict_set todo_id (replacement todo m) s).
Proof.
  intros H. unfold update_todo, bind, lift, Todo_init, model_dump_exclude_unset.
  cbn [d_title d_description d_priority]. rewrite H.
  unfold replacement, todos_set, ret.
  now destruct (is_set "description" m), (is_set "priority" m).
Qed.

Lemma delete_todo_eq todo s s' :
  dict_pop (id todo) s = Some (todo, s') -> delete_todo todo s = (Ok tt, s').
Proof.
  intros H. unfold delete_todo, bind, todos_pop. now rewrite H.
Qed.

(** ** Validation *)

Lemma obj_get_skip k k' v l1 l2 :
  k <> k' ->
  obj_get k (l1 ++ (k', v) :: l2)%list = obj_get k (l1 ++ l2)%list.
Proof.
  intros Hne. induction l1 as [|[k0 v0] l1 IH]; simpl.
  - destruct (obj_get k l2); [reflexivity |].
    destruct (String.eqb_spec k k'); congruence.
  - now rewrite IH.
Qed.

Section ValidationFacts.
Variable int_lax : json -> option Z.

(** Splits the goal on the outcome of each field's validation. *)
Ltac split_fields :=
  repeat match goal with
         | |- context [match ?x with inl _ => _ | inr _ => _ end] =>
             destruct x eqn:?
         end.

Lemma validate_raises payload ex :
  validate_TodoCreate int_lax payload = Raise ex ->
  exists errs, ex = RequestValidationError errs.
Proof.
  unfold validate_TodoCreate.
  destruct payload; try (intros [= <-]; eauto; fail).
  cbv zeta. split_fields; intros [= <-] || discriminate; eauto.
Qed.

(** A validated body always has its title set. *)
Lemma validate_title_set payload m :
  validate_TodoCreate int_lax payload = Ok m -> is_set "title" m = true.
Proof.
  unfold validate_TodoCreate.
  destruct payload; try discriminate. cbv zeta.
  destruct (obj_get "title" members) as [v|] eqn:Et.
  - split_fields; try discriminate.
    intros [= <-]. unfold is_set. simpl. rewrite Et. reflexivity.
  - split_fields; discriminate.
Qed.

(** Without a string title the body is rejected. *)
Lemma validate_no_title payload :
  has_str_title payload = false ->
  exists errs,
    validate_TodoCreate int_lax payload =
    Raise (RequestValidationError errs).
Proof.
  intros H.
  destruct (validate_TodoCreate int_lax payload) as [m|ex] eqn:E.
  - exfalso. revert H E. unfold has_str_title, validate_TodoCreate.
    destruct payload; try discriminate. cbv zeta.
    destruct (obj_get "title" members) as [[]|]; simpl; try discriminate;
      intros _; split_fields; discriminate.
  - destruct (validate_raises _ _ E) as [errs ->]. eauto.
Qed.

(** With a string title and well-typed optional members it is accepted,
    and the model holds the title. *)
Lemma validate_accepts members t :
  obj_get "title" members = Some (JStr t) ->
  description_ok members = true ->
  priority_ok int_lax members = true ->
  exists m,
    validate_TodoCreate int_lax (JObj members) = Ok m /\ tc_title m = t /\
    model_fields_set m =
    filter (fun k => is_some (obj_get k members))
      ["title"; "description"; "priority"].
Proof.
  unfold description_ok, priority_ok, validate_TodoCreate.
  intros -> Hd Hp. simpl validate_str. cbv iota.
  destruct (obj_get "description" members) as [[]|]; try discriminate;
  simpl validate_optional_str; cbv iota;
  (destruct (obj_get "priority" members) as [v|];
   [ unfold validate_optional_int;
     destruct v; try (eexists; repeat split; fail);
     (destruct (int_lax _); [eexists; repeat split | discriminate])
   | eexists; repeat split ]).
Qed.

(** A member the model does not declare changes neither whether the body
    is accepted nor the model it validates to. *)
Lemma validate_ignores_member k v l1 l2 m :
  k <> "title" -> k <> "description" -> k <> "priority" ->
  validate_TodoCreate int_lax (JObj (l1 ++ (k, v) :: l2)%list) = Ok m <->
  validate_TodoCreate int_lax (JObj (l1 ++ l2)%list) = Ok m.
Proof.
  intros H1 H2 H3. unfold validate_TodoCreate. cbv zeta. cbn [filter].
  rewrite !(obj_get_skip "title"), !(obj_get_skip "description"),
    !(obj_get_skip "priority") by congruence.
  destruct (obj_get "title" (l1 ++ l2)%list) as [vt|];
    [destruct (validate_str "title" vt) |];
    split_fields; split; (discriminate || (intros E; exact E)).
Qed.
End ValidationFacts.

(** ** Routes *)

Section RouteFacts.
Variable int_lax : json -> option Z.
Variable e : env.

Lemma route_POST_ok payload m s :
  validate_TodoCreate int_lax payload = Ok m ->
  route int_lax e (POST_todos payload) s =
  (mkResponse HTTP_201_CREATED (CTodo (new_record (uuid4 e) (now e) m)),
   dict_set (str_UUID (uuid4 e)) (new_record (uuid4 e) (now e) m) s).
Proof.
  intros H. unfold route, respond, bind, lift. now rewrite H.
Qed.

Lemma route_POST_rejected payload errs s :
  validate_TodoCreate int_lax payload = Raise (RequestValidationError errs) ->
  route int_lax e (POST_todos payload) s =
  (mkResponse HTTP_422_UNPROCESSABLE_ENTITY (CErrors errs), s).
Proof.
  intros H. unfold route, respond, bind, lift. now rewrite H.
Qed.

Lemma route_GET_found todo_id t s :
  dict_get todo_id s = Some t ->
  route int_lax e (GET_todo todo_id) s = (mkResponse HTTP_200_OK (CTodo t), s).
Proof.
  intros H. unfold route, respond, bind.
  now rewrite (get_todo_by_id_found _ _ _ H).
Qed.

Lemma route_missing todo_id s r :
  dict_get todo_id s = None ->
  (r = GET_todo todo_id \/ (exists payload, r = PATCH_todo todo_id payload) \/
   r = DELETE_todo todo_id) ->
  route int_lax e r s =
  (mkResponse HTTP_404_NOT_FOUND (CDetail (not_found_detail todo_id)), s).
Proof.
  intros H [-> | [[payload ->] | ->]]; unfold route, respond, bind;
    now rewrite (get_todo_by_id_missing _ _ H).
Qed.

Lemma route_PATCH_rejected todo_id payload errs todo s :
  dict_get todo_id s = Some todo ->
  validate_TodoCreate int_lax payload = Raise (RequestValidationError errs) ->
  route int_lax e (PATCH_todo todo_id payload) s =
  (mkResponse HTTP_422_UNPROCESSABLE_ENTITY (CErrors errs), s).
Proof.
  intros H Hv. unfold route, respond, bind, lift.
  now rewrite (get_todo_by_id_found _ _ _ H), Hv.
Qed.

Lemma route_PATCH_ok todo_id payload m todo s :
  dict_get todo_id s = Some todo ->
  validate_TodoCreate int_lax payload = Ok m ->
  route int_lax e (PATCH_todo todo_id payload) s =
  (mkResponse HTTP_200_OK (CTodo (replacement todo m)),
   dict_set todo_id (replacement todo m) s).
Proof.
  intros H Hv. unfold route, respond, bind, lift.
  rewrite (get_todo_by_id_found _ _ _ H), Hv.
  now rewrite (update_todo_eq _ _ _ _ (validate_title_set _ _ _ Hv)).
Qed.

(** The delete route on a present id, without assuming anything about the
    store: the entry under the record's own id is popped, or the pop
    fails. *)
Lemma route_DELETE_present todo_id todo s :
  dict_get todo_id s = Some todo ->
  route int_lax e (DELETE_todo todo_id) s =
  match dict_pop (id todo) s with
  | Some (_, s') => (mkResponse HTTP_204_NO_CONTENT CEmpty, s')
  | None => (mkResponse HTTP_500_INTERNAL_SERVER_ERROR CInternalError, s)
  end.
Proof.
  intros H. unfold route, respond, bind.
  rewrite (get_todo_by_id_found _ _ _ H).
  unfold delete_todo, bind, todos_pop.
  now destruct (dict_pop (id todo) s) as [[v s']|].
Qed.

(** *** The same, once the response is written out *)

Lemma app_route r s :
  app int_lax e r s =
  (serialise (fst (route int_lax e r s)), snd (route int_lax e r s)).
Proof. unfold app. now destruct (route int_lax e r s). Qed.

Lemma app_snd r s : snd (app int_lax e r s) = snd (route int_lax e r s).
Proof. now rewrite app_route. Qed.

Lemma app_POST_ok payload m s :
  validate_TodoCreate int_lax payload = Ok m ->
  app int_lax e (POST_todos payload) s =
  (serialise
     (mkResponse HTTP_201_CREATED (CTodo (new_record (uuid4 e) (now e) m))),
   dict_set (str_UUID (uuid4 e)) (new_record (uuid4 e) (now e) m) s).
Proof. intros H. now rewrite app_route, (route_POST_ok _ _ _ H). Qed.

Lemma app_POST_rejected payload errs s :
  validate_TodoCreate int_lax payload = Raise (RequestValidationError errs) ->
  app int_lax e (POST_todos payload) s =
  (serialise (mkResponse HTTP_422_UNPROCESSABLE_ENTITY (CErrors errs)), s).
Proof. intros H. now rewrite app_route, (route_POST_rejected _ _ _ H). Qed.

Lemma app_GET_found todo_id t s :
  dict_get todo_id s = Some t ->
  app int_lax e (GET_todo todo_id) s =
  (serialise (mkResponse HTTP_200_OK (CTodo t)), s).
Proof. intros H. now rewrite app_route, (route_GET_found _ _ _ H). Qed.

Lemma app_GET_missing todo_id s :
  dict_get todo_id s = None ->
  app int_lax e (GET_todo todo_id) s =
  (mkResponse HTTP_404_NOT_FOUND (CDetail (not_found_detail todo_id)), s).
Proof.
  intros H. rewrite app_route, (route_missing todo_id s _ H); auto.
Qed.

Lemma app_PATCH_missing todo_id payload s :
  dict_get todo_id s = None ->
  app int_lax e (PATCH_todo todo_id payload) s =
  (mkResponse HTTP_404_NOT_FOUND (CDetail (not_found_detail todo_id)), s).
Proof.
  intros H. rewrite app_route, (route_missing todo_id s _ H); eauto.
Qed.

Lemma app_PATCH_rejected todo_id payload errs todo s :
  dict_get todo_id s = Some todo ->
  validate_TodoCreate int_lax payload = Raise (RequestValidationError errs) ->
  app int_lax e (PATCH_todo todo_id payload) s =
  (serialise (mkResponse HTTP_422_UNPROCESSABLE_ENTITY (CErrors errs)), s).
Proof.
  intros H Hv. now rewrite app_route, (route_PATCH_rejected _ _ _ _ _ H Hv).
Qed.

Lemma app_PATCH_ok todo_id payload m todo s :
  dict_get todo_id s = Some todo ->
  validate_TodoCreate int_lax payload = Ok m ->
  app int_lax e (PATCH_todo todo_id payload) s =
  (serialise (mkResponse HTTP_200_OK (CTodo (replacement todo m))),
   dict_set todo_id (replacement todo m) s).
Proof.
  intros H Hv. now rewrite app_route, (route_PATCH_ok _ _ _ _ _ H Hv).
Qed.

Lemma app_DELETE_missing todo_id s :
  dict_get todo_id s = None ->
  app int_lax e (DELETE_todo todo_id) s =
  (mkResponse HTTP_404_NOT_FOUND (CDetail (not_found_detail todo_id)), s).
Proof.
  intros H. rewrite app_route, (route_missing todo_id s _ H); auto.
Qed.

Lemma app_DELETE_present todo_id todo s :
  dict_get todo_id s = Some todo ->
  app int_lax e (DELETE_todo todo_id) s =
  match dict_pop (id todo) s with
  | Some (_, s') => (mkResponse HTTP_204_NO_CONTENT CEmpty, s')
  | None => (mkResponse HTTP_500_INTERNAL_SERVER_ERROR CInternalError, s)
  end.
Proof.
  intros H. rewrite app_route, (route_DELETE_present _ _ _ H).
  now destruct (dict_pop (id todo) s) as [[v s']|].
Qed.

Lemma app_DELETE_found todo_id todo s s' :
  dict_get todo_id s = Some todo ->
  dict_pop (id todo) s = Some (todo, s') ->
  app int_lax e (DELETE_todo todo_id) s =
  (mkResponse HTTP_204_NO_CONTENT CEmpty, s').
Proof.
  intros H Hp. now rewrite (app_DELETE_present _ _ _ H), Hp.
Qed.
End RouteFacts.

(** ** Serialisation *)

Lemma serialise_renderable resp :
  content_renderable (body resp) = true -> serialise resp = resp.
Proof. intros H. unfold serialise. now rewrite H. Qed.

Lemma serialise_not_renderable resp :
  content_renderable (body resp) = false ->
  serialise resp = mkResponse HTTP_500_INTERNAL_SERVER_ERROR CInternalError.
Proof. intros H. unfold serialise. now rewrite H. Qed.

Lemma serialise_status resp :
  status (serialise resp) = status resp \/
  status (serialise resp) = HTTP_500_INTERNAL_SERVER_ERROR.
Proof.
  unfold serialise. destruct (content_renderable (body resp)); auto.
Qed.

(** ** The store invariant *)

Lemma store_inv_init : store_inv todos_init.
Proof. split; constructor. Qed.

Lemma store_inv_id s k t : store_inv s -> dict_get k s = Some t -> id t = k.
Proof.
  intros [_ Hid] H. apply dict_get_In in H.
  rewrite Forall_forall in Hid. exact (Hid _ H).
Qed.

Lemma store_inv_set s k v :
  store_inv s -> id v = k -> store_inv (dict_set k v s).
Proof.
  intros [Hnd Hid] Hk. split.
  - now apply dict_set_NoDup.
  - rewrite Forall_forall in *. intros x Hx.
    destruct (dict_set_In _ _ _ _ Hx) as [-> | Hin]; auto.
Qed.

Lemma store_inv_pop s k v s' :
  store_inv s -> dict_pop k s = Some (v, s') -> store_inv s'.
Proof.
  intros [Hnd Hid] Hp. split.
  - eapply dict_pop_NoDup; eauto.
  - destruct (dict_pop_split _ _ _ _ Hp) as (l1 & l2 & -> & -> & _).
    rewrite Forall_forall in *. intros x Hx. apply Hid.
    apply in_app_or in Hx. apply in_or_app. simpl. tauto.
Qed.

(** Every request keeps the invariant, whatever its outcome. *)
Lemma store_inv_app int_lax e r s :
  store_inv s -> store_inv (snd (app int_lax e r s)).
Proof.
  intros Hs. destruct r as [payload| |todo_id|todo_id payload|todo_id|].
  - destruct (validate_TodoCreate int_lax payload) as [m|ex] eqn:Hv.
    + rewrite (app_POST_ok _ _ _ _ _ Hv). cbn [snd].
      now apply store_inv_set.
    + destruct (validate_raises _ _ _ Hv) as [errs ->].
      now rewrite (app_POST_rejected _ _ _ _ _ Hv).
  - exact Hs.
  - destruct (dict_get todo_id s) as [t|] eqn:Hg.
    + now rewrite (app_GET_found _ _ _ _ _ Hg).
    + now rewrite (app_GET_missing _ _ _ _ Hg).
  - destruct (dict_get todo_id s) as [t|] eqn:Hg.
    + destruct (validate_TodoCreate int_lax payload) as [m|ex] eqn:Hv.
      * rewrite (app_PATCH_ok _ _ _ _ _ _ _ Hg Hv). cbn [snd].
        apply store_inv_set; [exact Hs |]. cbn [id replacement].
        now apply store_inv_id with (s := s).
      * destruct (validate_raises _ _ _ Hv) as [errs ->].
        now rewrite (app_PATCH_rejected _ _ _ _ _ _ _ Hg Hv).
    + now rewrite (app_PATCH_missing _ _ _ _ _ Hg).
  - destruct (dict_get todo_id s) as [t|] eqn:Hg.
    + pose proof (store_inv_id _ _ _ Hs Hg) as Hid.
      destruct (dict_pop_Some _ _ _ Hg) as [s' Hp].
      rewrite <- Hid in Hp.
      rewrite (app_DELETE_found _ _ _ _ _ _ Hg Hp). cbn [snd].
      eapply store_inv_pop; eauto.
    + now rewrite (app_DELETE_missing _ _ _ _ Hg).
  - exact Hs.
Qed.

Lemma reachable_store_inv int_lax s : reachable int_lax s -> store_inv s.
Proof.
  induction 1 as [|e r s _ IH].
  - exact store_inv_init.
  - now apply store_inv_app.
Qed.

(** ** Generated ids *)

Lemma length_append (s1 s2 : string) :
  String.length (s1 ++ s2) = String.length s1 + String.length s2.
Proof. induction s1 as [|c s1 IH]; simpl; [reflexivity | now rewrite IH]. Qed.

Lemma length_hex_fixed w n : String.length (hex_fixed w n) = w.
Proof.
  revert n. induction w as [|w IH]; intros n; simpl; [reflexivity |].
  rewrite length_append, IH. simpl. lia.
Qed.

Lemma length_substring n m s :
  n + m <= String.length s -> String.length (substring n m s) = m.
Proof.
  revert n m. induction s as [|c s IH]; intros n m; simpl.
  - intros H. assert (n = 0) as -> by lia. assert (m = 0) as -> by lia.
    reflexivity.
  - destruct n as [|n].
    + destruct m as [|m]; simpl; [reflexivity |].
      intros H. rewrite IH; lia.
    + simpl. intros H. apply IH. lia.
Qed.

(** The id of a new record always has the 36 characters of the canonical
    text form. *)
Lemma str_UUID_length u : String.length (str_UUID u) = 36.
Proof.
  unfold str_UUID. cbv zeta.
  rewrite !length_append.
  rewrite !length_substring by (rewrite length_hex_fixed; lia).
  reflexivity.
Qed.

Lemma str_UUID_nonempty u : str_UUID u <> "".
Proof.
  intros H. pose proof (str_UUID_length u) as L. rewrite H in L. discriminate.
Qed.

Lemma all_ascii_append s1 s2 :
  all_ascii (s1 ++ s2) = all_ascii s1 && all_ascii s2.
Proof.
  induction s1 as [|c s1 IH]; simpl; [reflexivity |].
  now rewrite IH, andb_assoc.
Qed.

Lemma all_ascii_substring n m s :
  all_ascii s = true -> all_ascii (substring n m s) = true.
Proof.
  revert n m. induction s as [|c s IH]; intros n m H.
  - now destruct n, m.
  - simpl in H. apply andb_true_iff in H. destruct H as [Hc Hs].
    destruct n as [|n]; simpl.
    + destruct m as [|m]; simpl; [reflexivity |].
      now rewrite Hc, IH.
    + now apply IH.
Qed.

Lemma hex_digit_ascii n : (N_of_ascii (hex_digit n) <? 128)%N = true.
Proof.
  destruct n as [|p]; [reflexivity |].
  do 5 (try (destruct p as [p|p|]; try reflexivity)).
Qed.

Lemma all_ascii_hex_fixed w n : all_ascii (hex_fixed w n) = true.
Proof.
  revert n. induction w as [|w IH]; intros n; simpl; [reflexivity |].
  rewrite all_ascii_append, IH. simpl. now rewrite hex_digit_ascii.
Qed.

Lemma all_ascii_encodable s : all_ascii s = true -> utf8_encodable s = true.
Proof.
  induction s as [|c s IH]; [reflexivity |].
  simpl all_ascii. intros H. apply andb_true_iff in H. destruct H as [Hc Hs].
  simpl. destruct s as [|c' s']; [reflexivity |].
  rewrite (IH Hs). unfold surrogate_start.
  apply N.ltb_lt in Hc.
  destruct (N.eqb_spec (N_of_ascii c) 237) as [E | _]; [lia | reflexivity].
Qed.

(** A generated id can always be written out. *)
Lemma str_UUID_encodable u : utf8_encodable (str_UUID u) = true.
Proof.
  apply all_ascii_encodable. unfold str_UUID. cbv zeta.
  rewrite !all_ascii_append.
  rewrite !all_ascii_substring by apply all_ascii_hex_fixed.
  reflexivity.
Qed.

Lemma store_A_eq : store_A = [(id_a, todo_A)].
Proof. reflexivity. Qed.

Lemma store_A_reachable : reachable int_exact store_A.
Proof. unfold store_A. apply reach_step. apply reach_init. Qed.

Lemma store_A_inv : store_inv store_A.
Proof.
  split.
  - repeat constructor. simpl. tauto.
  - repeat constructor.
Qed.

(** * The claims *)

(** ** Update *)

(** An update whose body holds the title alone: whatever the stored
    description and priority were, the replacement handed over for
    serialisation carries the declared defaults. *)
Lemma route_PATCH_title_only int_lax e todo_id t todo s :
  dict_get todo_id s = Some todo ->
  route int_lax e (PATCH_todo todo_id (JObj [("title", JStr t)])) s =
  (mkResponse HTTP_200_OK
     (CTodo {| title := t; description := None; priority := Some 1%Z;
               id := id todo; created_at := created_at todo;
               completed := completed todo |}),
   dict_set todo_id
     {| title := t; description := None; priority := Some 1%Z;
        id := id todo; created_at := created_at todo;
        completed := completed todo |} s).
Proof.
  intros H.
  now rewrite (route_PATCH_ok int_lax e todo_id (JObj [("title", JStr t)])
                 {| tc_title := t; tc_description := None;
                    tc_priority := Some 1%Z; model_fields_set := ["title"] |}
                 todo s H eq_refl).
Qed.

(** C1: creating a todo with title "A", description "d", priority 2 and
    then updating it with the body {title: "B"} does not keep the stored
    description and priority.  The body validates to a model whose only set
    field is the title; the update answers 200 with a record whose
    description is null and whose priority is 1, and that record is what
    the store then holds.  The merge described by the claim would have
    given description "d" and priority 2. *)
Theorem update_resets_absent_fields :
  validate_TodoCreate int_exact body_B = Ok model_B /\
  serve int_exact
    [(env_a, POST_todos body_A); (env_b, PATCH_todo id_a body_B)]
    todos_init =
  ([mkResponse 201 (CTodo todo_A);
    mkResponse 200
      (CTodo {| title := "B"; description := None; priority := Some 1%Z;
                id := id_a; created_at := clock_a; completed := false |})],
   [(id_a,
     {| title := "B"; description := None; priority := Some 1%Z;
        id := id_a; created_at := clock_a; completed := false |})]) /\
  spec_partial_update todo_A model_B =
  {| title := "B"; description := Some "d"; priority := Some 2%Z;
     id := id_a; created_at := clock_a; completed := false |} /\
  replacement todo_A model_B <> spec_partial_update todo_A model_B.
Proof.
  repeat split; try reflexivity.
  intros H. apply (f_equal description) in H. discriminate H.
Qed.
(** C2, as stated, fails: against an existing id, a body that omits the
    title is answered 422 and the store is left as it was. *)
Lemma patch_without_title_is_rejected :
  dict_get id_a store_A = Some todo_A /\
  app int_exact env_b
    (PATCH_todo id_a (JObj [("description", JStr "x")])) store_A =
  (mkResponse 422
     (CErrors [Missing "title" (JObj [("description", JStr "x")])]),
   store_A).
Proof. split; reflexivity. Qed.

(** C2, amended: the update route accepts a body that holds a string
    title together with any subset of description and priority, each null
    or of its type: against an existing id the update handler then runs
    and stores the updated record, and the answer is 200 with that record
    whenever the record can be serialised.  A body that omits the title is
    rejected by validation before the handler runs and leaves the store
    unchanged; the answer is 422 whenever the error body, which repeats the
    rejected input, can be serialised. *)
Theorem patch_accepts_bodies_with_title int_lax e todo_id members todo s :
  dict_get todo_id s = Some todo ->
  (obj_get "title" members = None ->
   exists errs,
     validate_TodoCreate int_lax (JObj members) =
     Raise (RequestValidationError errs) /\
     snd (app int_lax e (PATCH_todo todo_id (JObj members)) s) = s /\
     (content_renderable (CErrors errs) = true ->
      fst (app int_lax e (PATCH_todo todo_id (JObj members)) s) =
      mkResponse 422 (CErrors errs))) /\
  (forall t,
     obj_get "title" members = Some (JStr t) ->
     description_ok members = true ->
     priority_ok int_lax members = true ->
     exists m,
       validate_TodoCreate int_lax (JObj members) = Ok m /\
       tc_title m = t /\
       update_todo todo_id m todo s =
       (Ok (replacement todo m), dict_set todo_id (replacement todo m) s) /\
       snd (app int_lax e (PATCH_todo todo_id (JObj members)) s) =
       dict_set todo_id (replacement todo m) s /\
       dict_get todo_id (dict_set todo_id (replacement todo m) s) =
       Some (replacement todo m) /\
       title (replacement todo m) = t /\
       (Todo_renderable (replacement todo m) = true ->
        fst (app int_lax e (PATCH_todo todo_id (JObj members)) s) =
        mkResponse 200 (CTodo (replacement todo m)))).
Proof.
  intros Hg. split.
  - intros Ht.
    destruct (validate_no_title int_lax (JObj members)) as [errs Hv].
    { simpl. now rewrite Ht. }
    exists errs. rewrite (app_PATCH_rejected _ _ _ _ _ _ _ Hg Hv).
    split; [exact Hv |]. split; [reflexivity |].
    intros Hr. cbn [fst]. now apply serialise_renderable.
  - intros t Ht Hd Hp.
    destruct (validate_accepts int_lax members t Ht Hd Hp) as (m & Hv & Hm & _).
    exists m. rewrite (app_PATCH_ok _ _ _ _ _ _ _ Hg Hv).
    split; [exact Hv |]. split; [exact Hm |].
    split; [exact (update_todo_eq _ _ _ _ (validate_title_set _ _ _ Hv)) |].
    split; [reflexivity |]. split; [apply dict_get_set_eq |].
    split; [exact Hm |].
    intros Hr. cbn [fst]. now apply serialise_renderable.
Qed.

Lemma patch_accepts_bodies_with_title_witness :
  (exists errs,
     validate_TodoCreate int_exact (JObj [("priority", JInt 3)]) =
     Raise (RequestValidationError errs) /\
     snd (app int_exact env_b
            (PATCH_todo id_a (JObj [("priority", JInt 3)])) store_A) =
     store_A /\
     (content_renderable (CErrors errs) = true ->
      fst (app int_exact env_b
             (PATCH_todo id_a (JObj [("priority", JInt 3)])) store_A) =
      mkResponse 422 (CErrors errs))) /\
  (exists m,
     validate_TodoCreate int_exact
       (JObj [("title", JStr "B"); ("priority", JNull)]) = Ok m /\
     snd (app int_exact env_b
            (PATCH_todo id_a (JObj [("title", JStr "B"); ("priority", JNull)]))
            store_A) =
     dict_set id_a (replacement todo_A m) store_A /\
     title (replacement todo_A m) = "B").
Proof.
  split.
  - apply (proj1 (patch_accepts_bodies_with_title int_exact env_b id_a
                    [("priority", JInt 3)] todo_A store_A eq_refl)).
    reflexivity.
  - destruct (proj2 (patch_accepts_bodies_with_title int_exact env_b id_a
                       [("title", JStr "B"); ("priority", JNull)]
                       todo_A store_A eq_refl) "B" eq_refl eq_refl eq_refl)
      as (m & Hv & _ & _ & Hs & _ & Ht & _).
    exists m. split; [exact Hv |]. split; [exact Hs | exact Ht].
Defined.

(** ** Create *)

(** C3: a body that holds only the title validates, and the create
    handler then returns and stores, under its id, a record of priority 1,
    completed false, description null, the given title, the generated id
    (never the empty string) and the creation time; the answer is 201 with
    that record whenever the title can be serialised.  A body without a
    string title fails validation, and nothing is inserted: the store is
    left unchanged; the answer is 422 whenever the error body, which
    repeats the rejected input, can be serialised. *)
Theorem create_with_title_only int_lax e t s :
  (exists m r,
     validate_TodoCreate int_lax (JObj [("title", JStr t)]) = Ok m /\
     create_todo (uuid4 e) (now e) m s = (Ok r, dict_set (id r) r s) /\
     snd (app int_lax e (POST_todos (JObj [("title", JStr t)])) s) =
     dict_set (id r) r s /\
     dict_get (id r) (dict_set (id r) r s) = Some r /\
     title r = t /\ description r = None /\ priority r = Some 1%Z /\
     completed r = false /\
     id r = str_UUID (uuid4 e) /\ id r <> "" /\ created_at r = now e /\
     (utf8_encodable t = true ->
      fst (app int_lax e (POST_todos (JObj [("title", JStr t)])) s) =
      mkResponse 201 (CTodo r))) /\
  (forall payload,
     has_str_title payload = false ->
     exists errs,
       validate_TodoCreate int_lax payload =
       Raise (RequestValidationError errs) /\
       snd (app int_lax e (POST_todos payload) s) = s /\
       (content_renderable (CErrors errs) = true ->
        fst (app int_lax e (POST_todos payload) s) =
        mkResponse 422 (CErrors errs))).
Proof.
  split.
  - exists {| tc_title := t; tc_description := None;
              tc_priority := Some 1%Z; model_fields_set := ["title"] |},
           {| title := t; description := None; priority := Some 1%Z;
              id := str_UUID (uuid4 e); created_at := now e;
              completed := false |}.
    rewrite (app_POST_ok int_lax e (JObj [("title", JStr t)])
               {| tc_title := t; tc_description := None;
                  tc_priority := Some 1%Z; model_fields_set := ["title"] |}
               s eq_refl).
    cbn [id title description priority completed created_at fst snd].
    repeat split.
    + apply dict_get_set_eq.
    + apply str_UUID_nonempty.
    + intros Ht. apply serialise_renderable.
      cbn [body content_renderable]. unfold Todo_renderable.
      cbn [title description id new_record tc_title tc_description].
      now rewrite Ht, str_UUID_encodable.
  - intros payload H.
    destruct (validate_no_title int_lax payload H) as [errs Hv].
    exists errs. rewrite (app_POST_rejected _ _ _ _ _ Hv).
    split; [exact Hv |]. split; [reflexivity |].
    intros Hr. cbn [fst]. now apply serialise_renderable.
Qed.

Lemma create_with_title_only_witness :
  exists errs,
    validate_TodoCreate int_exact (JObj [("title", JInt 7)]) =
    Raise (RequestValidationError errs) /\
    snd (app int_exact env_b (POST_todos (JObj [("title", JInt 7)])) store_A)
    = store_A /\
    (content_renderable (CErrors errs) = true ->
     fst (app int_exact env_b (POST_todos (JObj [("title", JInt 7)])) store_A)
     = mkResponse 422 (CErrors errs)).
Proof.
  apply (proj2 (create_with_title_only int_exact env_b "A" store_A)).
  reflexivity.
Defined.

(** ** Lookup *)

(** C4: the lookup shared by the get, update and delete routes raises the
    404 exception whose detail names the id exactly when the id is absent
    from the store, and it raises nothing else; on an absent id each of the
    three routes answers 404 with that detail.  On a present id the lookup
    and the get handler return exactly the stored record and the store is
    left as it was; the answer is 200 with that record whenever the record
    can be serialised. *)
Theorem lookup_fails_iff_absent int_lax e todo_id s :
  (get_todo_by_id todo_id s =
   (Raise (HTTPException 404 ("Todo with ID " ++ todo_id ++ " not found")), s)
   <-> dict_get todo_id s = None) /\
  ((exists ex s', get_todo_by_id todo_id s = (Raise ex, s'))
   <-> dict_get todo_id s = None) /\
  (dict_get todo_id s = None ->
   forall payload,
     let not_found :=
       mkResponse 404
         (CDetail ("Todo with ID " ++ todo_id ++ " not found")) in
     app int_lax e (GET_todo todo_id) s = (not_found, s) /\
     app int_lax e (PATCH_todo todo_id payload) s = (not_found, s) /\
     app int_lax e (DELETE_todo todo_id) s = (not_found, s)) /\
  (forall t,
     dict_get todo_id s = Some t ->
     get_todo_by_id todo_id s = (Ok t, s) /\
     get_todo t s = (Ok t, s) /\
     snd (app int_lax e (GET_todo todo_id) s) = s /\
     (Todo_renderable t = true ->
      app int_lax e (GET_todo todo_id) s = (mkResponse 200 (CTodo t), s))).
Proof.
  split; [| split; [| split]].
  - split.
    + destruct (dict_get todo_id s) as [t|] eqn:Hg; [| reflexivity].
      rewrite (get_todo_by_id_found _ _ _ Hg). discriminate.
    + apply get_todo_by_id_missing.
  - split.
    + destruct (dict_get todo_id s) as [t|] eqn:Hg; [| reflexivity].
      rewrite (get_todo_by_id_found _ _ _ Hg). intros (ex & s' & H).
      discriminate H.
    + intros Hg. rewrite (get_todo_by_id_missing _ _ Hg). eauto.
  - intros Hg payload. cbv zeta. split; [| split].
    + now apply app_GET_missing.
    + now apply app_PATCH_missing.
    + now apply app_DELETE_missing.
  - intros t Hg. rewrite (app_GET_found _ _ _ _ _ Hg).
    split; [now apply get_todo_by_id_found |].
    split; [reflexivity |]. split; [reflexivity |].
    intros Hr. now rewrite serialise_renderable.
Qed.

Lemma lookup_fails_iff_absent_witness :
  (app int_exact env_b (GET_todo id_b) store_A =
   (mkResponse 404 (CDetail ("Todo with ID " ++ id_b ++ " not found")),
    store_A)) /\
  app int_exact env_b (GET_todo id_a) store_A =
  (mkResponse 200 (CTodo todo_A), store_A).
Proof.
  split.
  - apply (proj1 (proj1 (proj2 (proj2
             (lookup_fails_iff_absent int_exact env_b id_b store_A)))
             eq_refl JNull)).
  - apply (proj2 (proj2 (proj2 (proj2 (proj2 (proj2
             (lookup_fails_iff_absent int_exact env_b id_a store_A)))
             todo_A eq_refl)))).
    reflexivity.
Defined.

(** ** Fields no request can change *)

(** C5: one request never changes the id, created_at or completed of a
    record that is in the store before and after it.  The update route
    copies the three fields into the replacement, and every other route
    leaves the whole record as it was.  The id drawn by a create request
    is taken to be new to the store, as the generator promises. *)
Theorem identity_fields_are_stable int_lax e r s k t t' :
  store_inv s ->
  (forall payload,
     r = POST_todos payload -> dict_get (str_UUID (uuid4 e)) s = None) ->
  dict_get k s = Some t ->
  dict_get k (snd (app int_lax e r s)) = Some t' ->
  (id t' = id t /\ created_at t' = created_at t /\
   completed t' = completed t) /\
  ((forall payload, r <> PATCH_todo k payload) -> t' = t).
Proof.
  intros Hs Hfresh Hg Hg'.
  assert (Hsame : t' = t ->
            (id t' = id t /\ created_at t' = created_at t /\
             completed t' = completed t) /\
            ((forall payload, r <> PATCH_todo k payload) -> t' = t)).
  { intros ->. tauto. }
  destruct r as [payload| |todo_id|todo_id payload|todo_id|].
  - destruct (validate_TodoCreate int_lax payload) as [m|ex] eqn:Hv.
    + rewrite (app_POST_ok _ _ _ _ _ Hv) in Hg'. simpl in Hg'.
      rewrite dict_get_set_ne in Hg'.
      * apply Hsame. congruence.
      * intros E. rewrite E in Hfresh.
        rewrite (Hfresh payload eq_refl) in Hg. discriminate.
    + destruct (validate_raises _ _ _ Hv) as [errs ->].
      rewrite (app_POST_rejected _ _ _ _ _ Hv) in Hg'.
      apply Hsame. simpl in Hg'. congruence.
  - apply Hsame. simpl in Hg'. congruence.
  - apply Hsame. destruct (dict_get todo_id s) as [t0|] eqn:Hg0.
    + rewrite (app_GET_found _ _ _ _ _ Hg0) in Hg'. simpl in Hg'. congruence.
    + rewrite (app_GET_missing _ _ _ _ Hg0) in Hg'. simpl in Hg'. congruence.
  - destruct (dict_get todo_id s) as [t0|] eqn:Hg0.
    + destruct (validate_TodoCreate int_lax payload) as [m|ex] eqn:Hv.
      * rewrite (app_PATCH_ok _ _ _ _ _ _ _ Hg0 Hv) in Hg'. simpl in Hg'.
        destruct (string_dec todo_id k) as [-> | Hne].
        -- rewrite dict_get_set_eq in Hg'. injection Hg' as <-.
           assert (t0 = t) as -> by congruence.
           split; [simpl; tauto |].
           intros Hno. exfalso. exact (Hno payload eq_refl).
        -- rewrite (dict_get_set_ne _ _ _ _ Hne) in Hg'.
           apply Hsame. congruence.
      * destruct (validate_raises _ _ _ Hv) as [errs ->].
        rewrite (app_PATCH_rejected _ _ _ _ _ _ _ Hg0 Hv) in Hg'.
        apply Hsame. simpl in Hg'. congruence.
    + rewrite (app_PATCH_missing _ _ _ _ _ Hg0) in Hg'.
      apply Hsame. simpl in Hg'. congruence.
  - apply Hsame. destruct (dict_get todo_id s) as [t0|] eqn:Hg0.
    + rewrite (app_DELETE_present _ _ _ _ _ Hg0) in Hg'.
      destruct (dict_pop (id t0) s) as [[v s']|] eqn:Hp; simpl in Hg'.
      * destruct (string_dec k (id t0)) as [-> | Hne].
        -- rewrite (dict_pop_get_eq _ _ _ _ (proj1 Hs) Hp) in Hg'.
           discriminate.
        -- rewrite (dict_pop_get_ne _ _ _ _ _ Hp Hne) in Hg'. congruence.
      * congruence.
    + rewrite (app_DELETE_missing _ _ _ _ Hg0) in Hg'. simpl in Hg'.
      congruence.
  - apply Hsame. simpl in Hg'. congruence.
Qed.
Lemma identity_fields_are_stable_witness :
  id (replacement todo_A model_B) = id todo_A /\
  created_at (replacement todo_A model_B) = created_at todo_A /\
  completed (replacement todo_A model_B) = completed todo_A.
Proof.
  refine (proj1 (identity_fields_are_stable int_exact env_b
                   (PATCH_todo id_a body_B) store_A id_a todo_A
                   (replacement todo_A model_B) _ _ eq_refl eq_refl)).
  - split.
    + repeat constructor. simpl. tauto.
    + repeat constructor.
  - intros payload H. discriminate H.
Defined.
(** ** List *)

(** ** List *)

Lemma create_all_eq args :
  forall s,
    NoDup (map (fun a => str_UUID (fst (fst a))) args) ->
    (forall a, In a args -> dict_get (str_UUID (fst (fst a))) s = None) ->
    let created :=
      map (fun a => new_record (fst (fst a)) (snd (fst a)) (snd a)) args in
    create_all args s =
    (Ok created, (s ++ map (fun t => (id t, t)) created)%list).
Proof.
  induction args as [|[[u t] c] args IH]; intros s Hnd Hfresh; simpl.
  - unfold ret. now rewrite app_nil_r.
  - inversion Hnd as [|? ? Hni Hnd']; subst.
    unfold bind at 1. rewrite create_todo_eq.
    unfold bind at 1. rewrite IH.
    + unfold ret. rewrite dict_set_fresh.
      * now rewrite <- app_assoc.
      * apply (Hfresh (u, t, c)). now left.
    + exact Hnd'.
    + intros a Ha. rewrite dict_get_set_ne.
      * apply Hfresh. now right.
      * intros E. apply Hni. rewrite E.
        exact (in_map (fun a => str_UUID (fst (fst a))) _ _ Ha).
Qed.
Lemma route_GET_todos int_lax e s :
  route int_lax e GET_todos s =
  (mkResponse HTTP_200_OK (CTodoList (dict_values s)), s).
Proof. reflexivity. Qed.

Lemma app_GET_todos int_lax e s :
  forallb Todo_renderable (dict_values s) = true ->
  app int_lax e GET_todos s = (mkResponse 200 (CTodoList (dict_values s)), s).
Proof.
  intros H. rewrite app_route, route_GET_todos. cbn [fst snd].
  now rewrite serialise_renderable.
Qed.

(** C6: the list handler returns every record currently in the store, in
    the order of the store, and on an empty store it succeeds with the
    empty sequence, which the list route answers with 200.  After N
    creations into the empty store under distinct generated ids, every
    creation has succeeded and the list handler returns exactly the N
    records the creations returned, in the order of the calls.  The list
    route answers 200 with what the handler returned whenever every listed
    record can be serialised. *)
Theorem list_returns_what_was_created int_lax e :
  list_todos todos_init = (Ok [], todos_init) /\
  app int_lax e GET_todos todos_init =
  (mkResponse 200 (CTodoList []), todos_init) /\
  (forall s,
     list_todos s = (Ok (dict_values s), s) /\
     (forallb Todo_renderable (dict_values s) = true ->
      app int_lax e GET_todos s =
      (mkResponse 200 (CTodoList (dict_values s)), s))) /\
  (forall (s : store) k t, dict_get k s = Some t -> In t (dict_values s)) /\
  (forall args,
     NoDup (map (fun a => str_UUID (fst (fst a))) args) ->
     exists created s',
       create_all args todos_init = (Ok created, s') /\
       created =
       map (fun a => new_record (fst (fst a)) (snd (fst a)) (snd a)) args /\
       length created = length args /\
       list_todos s' = (Ok created, s') /\
       (forallb Todo_renderable created = true ->
        app int_lax e GET_todos s' =
        (mkResponse 200 (CTodoList created), s'))).
Proof.
  split; [reflexivity |]. split; [reflexivity |].
  split; [| split].
  - intros s. split; [reflexivity | apply app_GET_todos].
  - intros s k t H. apply dict_get_In in H.
    exact (in_map snd _ _ H).
  - intros args Hnd.
    pose proof (create_all_eq args todos_init Hnd (fun _ _ => eq_refl)) as H.
    cbv zeta in H. simpl app in H.
    set (created :=
           map (fun a => new_record (fst (fst a)) (snd (fst a)) (snd a)) args)
      in *.
    assert (Hv : dict_values (map (fun t => (id t, t)) created) = created).
    { unfold dict_values. rewrite map_map. simpl. apply map_id. }
    exists created, (map (fun t => (id t, t)) created).
    split; [exact H |]. split; [reflexivity |].
    split; [apply length_map |].
    split.
    + unfold list_todos, todos_values. now rewrite Hv.
    + intros Hr. rewrite <- Hv at 2. apply app_GET_todos. now rewrite Hv.
Qed.

Lemma list_returns_what_was_created_witness :
  exists created s',
    create_all [(uuid_a, clock_a, model_B); (uuid_b, clock_b, model_B)]
      todos_init = (Ok created, s') /\
    created =
    [new_record uuid_a clock_a model_B; new_record uuid_b clock_b model_B] /\
    length created = 2 /\
    list_todos s' = (Ok created, s') /\
    (forallb Todo_renderable created = true ->
     app int_exact env_a GET_todos s' =
     (mkResponse 200 (CTodoList created), s')).
Proof.
  apply (proj2 (proj2 (proj2 (proj2
           (list_returns_what_was_created int_exact env_a))))
           [(uuid_a, clock_a, model_B); (uuid_b, clock_b, model_B)]).
  repeat constructor; simpl; intuition discriminate.
Defined.

(** ** Delete *)

(** C7: on a store that satisfies the invariant, deleting a present id
    answers 204 with no content and takes exactly the entry of that id out
    of the store: the entries before and after it stay, in order, the id
    no longer looks up, every other id looks up as before, and a get of
    the same id now answers 404.  Deleting an absent id answers 404 and
    changes nothing. *)
Theorem delete_removes_exactly_that_record int_lax e todo_id s :
  store_inv s ->
  (forall t,
     dict_get todo_id s = Some t ->
     exists l1 l2,
       (s = l1 ++ (todo_id, t) :: l2)%list /\
       app int_lax e (DELETE_todo todo_id) s =
       (mkResponse 204 CEmpty, (l1 ++ l2)%list) /\
       dict_get todo_id (l1 ++ l2)%list = None /\
       (forall k, k <> todo_id ->
                  dict_get k (l1 ++ l2)%list = dict_get k s) /\
       (forall e',
          app int_lax e' (GET_todo todo_id) (l1 ++ l2)%list =
          (mkResponse 404 (CDetail (not_found_detail todo_id)),
           (l1 ++ l2)%list))) /\
  (dict_get todo_id s = None ->
   app int_lax e (DELETE_todo todo_id) s =
   (mkResponse 404 (CDetail (not_found_detail todo_id)), s)).
Proof.
  intros Hs. split.
  - intros t Hg.
    pose proof (store_inv_id _ _ _ Hs Hg) as Hid.
    destruct (dict_pop_Some _ _ _ Hg) as [s' Hp].
    pose proof (dict_pop_get_eq _ _ _ _ (proj1 Hs) Hp) as Hgone.
    pose proof (fun k => dict_pop_get_ne todo_id k _ _ _ Hp) as Hrest.
    destruct (dict_pop_split _ _ _ _ Hp) as (l1 & l2 & E1 & E2 & _).
    exists l1, l2. rewrite <- E2.
    split; [exact E1 |]. split; [| split; [exact Hgone | split]].
    + rewrite <- Hid in Hp. exact (app_DELETE_found _ _ _ _ _ _ Hg Hp).
    + exact Hrest.
    + intros e'. now apply app_GET_missing.
  - intros Hg. now apply app_DELETE_missing.
Qed.
Lemma delete_removes_exactly_that_record_witness :
  store_inv store_A /\
  (exists l1 l2,
     (store_A = l1 ++ (id_a, todo_A) :: l2)%list /\
     app int_exact env_b (DELETE_todo id_a) store_A =
     (mkResponse 204 CEmpty, (l1 ++ l2)%list) /\
     dict_get id_a (l1 ++ l2)%list = None /\
     (forall k, k <> id_a ->
                dict_get k (l1 ++ l2)%list = dict_get k store_A) /\
     (forall e',
        app int_exact e' (GET_todo id_a) (l1 ++ l2)%list =
        (mkResponse 404 (CDetail (not_found_detail id_a)),
         (l1 ++ l2)%list))) /\
  app int_exact env_b (DELETE_todo id_b) store_A =
  (mkResponse 404 (CDetail (not_found_detail id_b)), store_A).
Proof.
  assert (Hs : store_inv store_A).
  { split.
    - repeat constructor. simpl. tauto.
    - repeat constructor. }
  split; [exact Hs |]. split.
  - apply (proj1 (delete_removes_exactly_that_record int_exact env_b id_a
                    store_A Hs) todo_A eq_refl).
  - apply (proj2 (delete_removes_exactly_that_record int_exact env_b id_b
                    store_A Hs) eq_refl).
Defined.
(** ** Completion cannot be toggled by an update *)

(** A member the model does not declare never changes what a create or an
    update leaves in the store. *)
Lemma app_snd_ignores_member int_lax e k v l1 l2 s :
  k <> "title" -> k <> "description" -> k <> "priority" ->
  snd (app int_lax e (POST_todos (JObj (l1 ++ (k, v) :: l2)%list)) s) =
  snd (app int_lax e (POST_todos (JObj (l1 ++ l2)%list)) s) /\
  (forall todo_id,
     snd (app int_lax e
            (PATCH_todo todo_id (JObj (l1 ++ (k, v) :: l2)%list)) s) =
     snd (app int_lax e (PATCH_todo todo_id (JObj (l1 ++ l2)%list)) s)).
Proof.
  intros H1 H2 H3.
  destruct (validate_TodoCreate int_lax (JObj (l1 ++ l2)%list))
    as [m|ex] eqn:Hv.
  - assert (Hw : validate_TodoCreate int_lax
                   (JObj (l1 ++ (k, v) :: l2)%list) = Ok m).
    { now apply validate_ignores_member. }
    split.
    + now rewrite (app_POST_ok _ _ _ _ _ Hv), (app_POST_ok _ _ _ _ _ Hw).
    + intros todo_id. destruct (dict_get todo_id s) as [t|] eqn:Hg.
      * now rewrite (app_PATCH_ok _ _ _ _ _ _ _ Hg Hv),
          (app_PATCH_ok _ _ _ _ _ _ _ Hg Hw).
      * now rewrite !(app_PATCH_missing _ _ _ _ _ Hg).
  - destruct (validate_TodoCreate int_lax (JObj (l1 ++ (k, v) :: l2)%list))
      as [m'|ex'] eqn:Hv'.
    + apply validate_ignores_member in Hv'; try assumption.
      rewrite Hv in Hv'. discriminate.
    + destruct (validate_raises _ _ _ Hv) as [errs ->].
      destruct (validate_raises _ _ _ Hv') as [errs' ->].
      split.
      * now rewrite (app_POST_rejected _ _ _ _ _ Hv),
          (app_POST_rejected _ _ _ _ _ Hv').
      * intros todo_id. destruct (dict_get todo_id s) as [t|] eqn:Hg.
        -- now rewrite (app_PATCH_rejected _ _ _ _ _ _ _ Hg Hv),
             (app_PATCH_rejected _ _ _ _ _ _ _ Hg Hv').
        -- now rewrite !(app_PATCH_missing _ _ _ _ _ Hg).
Qed.

(** C8: a completed member in the body of an update is ignored: it
    changes neither whether the body is accepted, nor the model the body
    validates to, nor the store the request leaves.  And whatever the body
    of an update is, and whether it is accepted or rejected, the record
    stored under the id afterwards has the completed value it had
    before. *)
Theorem update_cannot_change_completed int_lax e todo_id s :
  (forall l1 l2 v m,
     validate_TodoCreate int_lax (JObj (l1 ++ ("completed", v) :: l2)%list)
     = Ok m <->
     validate_TodoCreate int_lax (JObj (l1 ++ l2)%list) = Ok m) /\
  (forall l1 l2 v,
     snd (app int_lax e
            (PATCH_todo todo_id (JObj (l1 ++ ("completed", v) :: l2)%list))
            s) =
     snd (app int_lax e (PATCH_todo todo_id (JObj (l1 ++ l2)%list)) s)) /\
  (forall payload t,
     dict_get todo_id s = Some t ->
     exists t',
       dict_get todo_id (snd (app int_lax e (PATCH_todo todo_id payload) s))
       = Some t' /\
       completed t' = completed t).
Proof.
  split; [| split].
  - intros l1 l2 v m. apply validate_ignores_member; discriminate.
  - intros l1 l2 v.
    apply (proj2 (app_snd_ignores_member int_lax e "completed" v l1 l2 s
                    ltac:(discriminate) ltac:(discriminate)
                    ltac:(discriminate))).
  - intros payload t Hg.
    destruct (validate_TodoCreate int_lax payload) as [m|ex] eqn:Hv.
    + rewrite (app_PATCH_ok _ _ _ _ _ _ _ Hg Hv). cbn [snd].
      exists (replacement t m). split; [apply dict_get_set_eq | reflexivity].
    + destruct (validate_raises _ _ _ Hv) as [errs ->].
      rewrite (app_PATCH_rejected _ _ _ _ _ _ _ Hg Hv). cbn [snd].
      exists t. split; [exact Hg | reflexivity].
Qed.

Lemma update_cannot_change_completed_witness :
  exists t',
    dict_get id_a
      (snd (app int_exact env_b
              (PATCH_todo id_a
                 (JObj [("title", JStr "B"); ("completed", JBool true)]))
              store_A))
    = Some t' /\
    completed t' = completed todo_A.
Proof.
  apply (proj2 (proj2
           (update_cannot_change_completed int_exact env_b id_a store_A))
           (JObj [("title", JStr "B"); ("completed", JBool true)]) todo_A).
  reflexivity.
Defined.

(** ** Error paths *)

(** C9: a request that is answered 404 leaves the store exactly as it was.
    This covers the get, update and delete routes, the only ones that can
    answer 404. *)
Theorem not_found_leaves_store_unchanged int_lax e r s :
  status (fst (app int_lax e r s)) = 404%Z ->
  snd (app int_lax e r s) = s.
Proof.
  assert (Habs : forall resp,
             status resp <> 404%Z ->
             status (serialise resp) = 404%Z -> False).
  { intros resp Hne H. destruct (serialise_status resp) as [E | E];
      rewrite E in H; [contradiction | discriminate H]. }
  destruct r as [payload| |todo_id|todo_id payload|todo_id|].
  - destruct (validate_TodoCreate int_lax payload) as [m|ex] eqn:Hv.
    + rewrite (app_POST_ok _ _ _ _ _ Hv). cbn [fst snd]. intros H.
      exfalso. revert H. apply Habs. discriminate.
    + destruct (validate_raises _ _ _ Hv) as [errs ->].
      now rewrite (app_POST_rejected _ _ _ _ _ Hv).
  - reflexivity.
  - destruct (dict_get todo_id s) as [t|] eqn:Hg.
    + now rewrite (app_GET_found _ _ _ _ _ Hg).
    + now rewrite (app_GET_missing _ _ _ _ Hg).
  - destruct (dict_get todo_id s) as [t|] eqn:Hg.
    + destruct (validate_TodoCreate int_lax payload) as [m|ex] eqn:Hv.
      * rewrite (app_PATCH_ok _ _ _ _ _ _ _ Hg Hv). cbn [fst snd].
        intros H. exfalso. revert H. apply Habs. discriminate.
      * destruct (validate_raises _ _ _ Hv) as [errs ->].
        now rewrite (app_PATCH_rejected _ _ _ _ _ _ _ Hg Hv).
    + now rewrite (app_PATCH_missing _ _ _ _ _ Hg).
  - destruct (dict_get todo_id s) as [t|] eqn:Hg.
    + rewrite (app_DELETE_present _ _ _ _ _ Hg).
      destruct (dict_pop (id t) s) as [[v s']|]; cbn [fst snd status];
        [discriminate | reflexivity].
    + now rewrite (app_DELETE_missing _ _ _ _ Hg).
  - reflexivity.
Qed.
Lemma not_found_leaves_store_unchanged_witness :
  snd (app int_exact env_b (PATCH_todo id_b body_B) store_A) = store_A /\
  snd (app int_exact env_b (DELETE_todo id_b) store_A) = store_A /\
  snd (app int_exact env_b (GET_todo id_b) store_A) = store_A.
Proof.
  split; [| split].
  - apply (not_found_leaves_store_unchanged int_exact env_b
             (PATCH_todo id_b body_B) store_A).
    reflexivity.
  - apply (not_found_leaves_store_unchanged int_exact env_b
             (DELETE_todo id_b) store_A).
    reflexivity.
  - apply (not_found_leaves_store_unchanged int_exact env_b
             (GET_todo id_b) store_A).
    reflexivity.
Defined.
(** ** Null priority *)

(** C10: a body whose priority is null validates, to a model whose
    priority is null, and the create handler stores a record whose
    priority is null; the default 1 is what a body without the member
    gets.  An update with such a body likewise stores a null priority.  So
    some store the service can reach holds a record whose priority is not
    an integer. *)
Theorem null_priority_is_stored int_lax e t s :
  (exists m r,
     validate_TodoCreate int_lax
       (JObj [("title", JStr t); ("priority", JNull)]) = Ok m /\
     tc_priority m = None /\
     create_todo (uuid4 e) (now e) m s = (Ok r, dict_set (id r) r s) /\
     snd (app int_lax e
            (POST_todos (JObj [("title", JStr t); ("priority", JNull)])) s) =
     dict_set (id r) r s /\
     dict_get (id r) (dict_set (id r) r s) = Some r /\
     priority r = None) /\
  (exists r,
     snd (app int_lax e (POST_todos (JObj [("title", JStr t)])) s) =
     dict_set (id r) r s /\
     priority r = Some 1%Z) /\
  (forall todo_id todo,
     dict_get todo_id s = Some todo ->
     exists r,
       snd (app int_lax e
              (PATCH_todo todo_id
                 (JObj [("title", JStr t); ("priority", JNull)])) s) =
       dict_set todo_id r s /\
       dict_get todo_id (dict_set todo_id r s) = Some r /\
       priority r = None) /\
  (exists s' k r,
     reachable int_lax s' /\ dict_get k s' = Some r /\ priority r = None).
Proof.
  set (m0 := {| tc_title := t; tc_description := None; tc_priority := None;
                model_fields_set := ["title"; "priority"] |}).
  assert (Hv : validate_TodoCreate int_lax
                 (JObj [("title", JStr t); ("priority", JNull)]) = Ok m0)
    by reflexivity.
  split; [| split; [| split]].
  - exists m0, (new_record (uuid4 e) (now e) m0).
    rewrite (app_POST_ok _ _ _ _ _ Hv). cbn [id new_record snd].
    repeat split. apply dict_get_set_eq.
  - exists {| title := t; description := None; priority := Some 1%Z;
              id := str_UUID (uuid4 e); created_at := now e;
              completed := false |}.
    rewrite (app_POST_ok int_lax e (JObj [("title", JStr t)])
               {| tc_title := t; tc_description := None;
                  tc_priority := Some 1%Z; model_fields_set := ["title"] |}
               s eq_refl).
    split; reflexivity.
  - intros todo_id todo Hg.
    exists (replacement todo m0).
    rewrite (app_PATCH_ok _ _ _ _ _ _ _ Hg Hv).
    split; [reflexivity |].
    split; [apply dict_get_set_eq | reflexivity].
  - exists (snd (app int_lax e
                   (POST_todos (JObj [("title", JStr t); ("priority", JNull)]))
                   todos_init)),
           (str_UUID (uuid4 e)), (new_record (uuid4 e) (now e) m0).
    split; [apply reach_step, reach_init |].
    split; [| reflexivity].
    rewrite (app_POST_ok _ _ _ _ _ Hv). cbn [snd]. apply dict_get_set_eq.
Qed.

Lemma null_priority_is_stored_witness :
  exists r,
    snd (app int_exact env_b
           (PATCH_todo id_a (JObj [("title", JStr "B"); ("priority", JNull)]))
           store_A) =
    dict_set id_a r store_A /\
    dict_get id_a (dict_set id_a r store_A) = Some r /\
    priority r = None.
Proof.
  apply (proj1 (proj2 (proj2
           (null_priority_is_stored int_exact env_b "B" store_A)))
           id_a todo_A).
  reflexivity.
Defined.

(** * Further properties of the handlers *)

(** ** Helper facts *)

(** ** Helper facts *)

Lemma dict_set_set {V : Type} k (v1 v2 : V) d :
  dict_set k v2 (dict_set k v1 d) = dict_set k v2 d.
Proof.
  induction d as [|[k' v'] d IH]; simpl.
  - now rewrite String.eqb_refl.
  - destruct (String.eqb k k') eqn:E; simpl.
    + now rewrite String.eqb_refl.
    + now rewrite E, IH.
Qed.
Lemma serve_store_inv int_lax reqs :
  forall s, store_inv s -> store_inv (snd (serve int_lax reqs s)).
Proof.
  induction reqs as [|[e r] reqs IH]; intros s Hs; simpl; [exact Hs |].
  pose proof (store_inv_app int_lax e r s Hs) as Hs'.
  destruct (app int_lax e r s) as [resp s'].
  specialize (IH s' Hs').
  now destruct (serve int_lax reqs s') as [resps s''].
Qed.
Lemma store_inv_ids s : store_inv s -> map id (dict_values s) = dict_keys s.
Proof.
  intros [_ Hid]. unfold dict_values, dict_keys. rewrite map_map.
  apply map_ext_in. intros kv Hin. rewrite Forall_forall in Hid.
  now apply Hid.
Qed.
Lemma store_inv_values s t :
  store_inv s -> In t (dict_values s) -> dict_get (id t) s = Some t.
Proof.
  intros Hs Hin. unfold dict_values in Hin.
  apply in_map_iff in Hin. destruct Hin as ([k v] & <- & Hin).
  destruct Hs as [Hnd Hid]. rewrite Forall_forall in Hid.
  pose proof (Hid _ Hin) as E. simpl in E. simpl. rewrite E.
  now apply dict_In_get.
Qed.
Lemma forallb_false_In {A : Type} (f : A -> bool) (x : A) (l : list A) :
  In x l -> f x = false -> forallb f l = false.
Proof.
  intros Hin Hx. destruct (forallb f l) eqn:E; [| reflexivity].
  rewrite forallb_forall in E. rewrite (E x Hin) in Hx. discriminate.
Qed.

(** ** Sessions *)

(** X1: after any session that starts from the empty store, no two listed
    records share an id, and every listed record is what the lookup
    returns for its own id; the get route answers 200 with it whenever it
    can be serialised. *)
Theorem listed_records_have_unique_ids int_lax reqs e :
  NoDup (map id (dict_values (snd (serve int_lax reqs todos_init)))) /\
  (forall t,
     In t (dict_values (snd (serve int_lax reqs todos_init))) ->
     get_todo_by_id (id t) (snd (serve int_lax reqs todos_init)) =
     (Ok t, snd (serve int_lax reqs todos_init)) /\
     (Todo_renderable t = true ->
      app int_lax e (GET_todo (id t)) (snd (serve int_lax reqs todos_init)) =
      (mkResponse 200 (CTodo t), snd (serve int_lax reqs todos_init)))).
Proof.
  pose proof (serve_store_inv int_lax reqs todos_init store_inv_init) as Hs.
  split.
  - rewrite (store_inv_ids _ Hs). exact (proj1 Hs).
  - intros t Hin. pose proof (store_inv_values _ _ Hs Hin) as Hg. split.
    + now apply get_todo_by_id_found.
    + intros Hr. rewrite (app_GET_found _ _ _ _ _ Hg).
      now rewrite serialise_renderable.
Qed.

Lemma listed_records_have_unique_ids_witness :
  app int_exact env_b (GET_todo (id todo_A))
    (snd (serve int_exact [(env_a, POST_todos body_A)] todos_init)) =
  (mkResponse 200 (CTodo todo_A),
   snd (serve int_exact [(env_a, POST_todos body_A)] todos_init)).
Proof.
  apply (proj2 (proj2 (listed_records_have_unique_ids int_exact
                         [(env_a, POST_todos body_A)] env_b) todo_A
                  ltac:(simpl; now left))).
  reflexivity.
Defined.

(** ** Reading routes *)

(** X2: the list route, the get route (found or not) and the root route
    never change the store, and the root route always answers 200 with its
    fixed three-member payload. *)
Theorem reading_routes_leave_store int_lax e s :
  snd (app int_lax e GET_todos s) = s /\
  (forall todo_id, snd (app int_lax e (GET_todo todo_id) s) = s) /\
  app int_lax e GET_root s =
  (mkResponse 200
     (CObject [("message", "Welcome to the Todo API");
               ("docs", "/docs"); ("redoc", "/redoc")]), s).
Proof.
  split; [reflexivity |]. split; [| reflexivity].
  intros todo_id. destruct (dict_get todo_id s) as [t|] eqn:Hg.
  - now rewrite (app_GET_found _ _ _ _ _ Hg).
  - now rewrite (app_GET_missing _ _ _ _ Hg).
Qed.
(** ** Round trips *)

(** X3: the record a create request returns is the record a get of its id
    returns right afterwards; and the record an update returns is the
    record a get of the updated id returns right afterwards. *)
Theorem returned_record_is_fetched int_lax e e' s :
  (forall payload rec s',
     app int_lax e (POST_todos payload) s =
     (mkResponse 201 (CTodo rec), s') ->
     app int_lax e' (GET_todo (id rec)) s' =
     (mkResponse 200 (CTodo rec), s')) /\
  (forall todo_id payload rec s',
     app int_lax e (PATCH_todo todo_id payload) s =
     (mkResponse 200 (CTodo rec), s') ->
     app int_lax e' (GET_todo todo_id) s' =
     (mkResponse 200 (CTodo rec), s')).
Proof.
  split.
  - intros payload rec s' H.
    destruct (validate_TodoCreate int_lax payload) as [m|ex] eqn:Hv.
    + rewrite (app_POST_ok _ _ _ _ _ Hv) in H. unfold serialise in H.
      destruct (content_renderable
                  (body (mkResponse HTTP_201_CREATED
                           (CTodo (new_record (uuid4 e) (now e) m)))))
        eqn:Hr; [| discriminate H].
      injection H as Hrec Hs'. subst rec s'.
      rewrite (app_GET_found int_lax e' (id (new_record (uuid4 e) (now e) m))
                 (new_record (uuid4 e) (now e) m)).
      * now rewrite serialise_renderable.
      * cbn [id new_record]. apply dict_get_set_eq.
    + destruct (validate_raises _ _ _ Hv) as [errs ->].
      rewrite (app_POST_rejected _ _ _ _ _ Hv) in H. unfold serialise in H.
      destruct (content_renderable _); discriminate H.
  - intros todo_id payload rec s' H.
    destruct (dict_get todo_id s) as [t|] eqn:Hg.
    + destruct (validate_TodoCreate int_lax payload) as [m|ex] eqn:Hv.
      * rewrite (app_PATCH_ok _ _ _ _ _ _ _ Hg Hv) in H.
        unfold serialise in H.
        destruct (content_renderable
                    (body (mkResponse HTTP_200_OK (CTodo (replacement t m)))))
          eqn:Hr; [| discriminate H].
        injection H as Hrec Hs'. subst rec s'.
        rewrite (app_GET_found int_lax e' todo_id (replacement t m)).
        -- now rewrite serialise_renderable.
        -- apply dict_get_set_eq.
      * destruct (validate_raises _ _ _ Hv) as [errs ->].
        rewrite (app_PATCH_rejected _ _ _ _ _ _ _ Hg Hv) in H.
        unfold serialise in H.
        destruct (content_renderable _); discriminate H.
    + rewrite (app_PATCH_missing _ _ _ _ _ Hg) in H. discriminate H.
Qed.
Lemma returned_record_is_fetched_witness :
  app int_exact env_b (GET_todo (id todo_A)) store_A =
  (mkResponse 200 (CTodo todo_A), store_A).
Proof.
  apply (proj1 (returned_record_is_fetched int_exact env_a env_b todos_init)
           body_A todo_A store_A).
  reflexivity.
Defined.
(** ** Updates compose by overwriting *)

(** X4: the answer to an update does not depend on an earlier update of
    the same id, and when the later update is accepted neither does the
    store it leaves: the later body alone decides title, description and
    priority.  In particular an update sent twice has the effect of
    sending it once. *)
Theorem later_update_overrides_earlier int_lax e1 e2 todo_id p1 p2 s :
  fst (app int_lax e2 (PATCH_todo todo_id p2)
         (snd (app int_lax e1 (PATCH_todo todo_id p1) s))) =
  fst (app int_lax e2 (PATCH_todo todo_id p2) s) /\
  (forall m2,
     validate_TodoCreate int_lax p2 = Ok m2 ->
     snd (app int_lax e2 (PATCH_todo todo_id p2)
            (snd (app int_lax e1 (PATCH_todo todo_id p1) s))) =
     snd (app int_lax e2 (PATCH_todo todo_id p2) s)).
Proof.
  destruct (dict_get todo_id s) as [t|] eqn:Hg.
  - destruct (validate_TodoCreate int_lax p1) as [m1|ex1] eqn:Hv1.
    + rewrite (app_PATCH_ok _ _ _ _ _ _ _ Hg Hv1). cbn [snd].
      pose proof (dict_get_set_eq todo_id (replacement t m1) s) as Hg1.
      destruct (validate_TodoCreate int_lax p2) as [m2|ex2] eqn:Hv2.
      * rewrite (app_PATCH_ok _ _ _ _ _ _ _ Hg1 Hv2).
        rewrite (app_PATCH_ok _ _ _ _ _ _ _ Hg Hv2). cbn [fst snd].
        split; [reflexivity |]. intros m0 _.
        unfold replacement at 1. cbn [id created_at completed replacement].
        apply dict_set_set.
      * destruct (validate_raises _ _ _ Hv2) as [errs ->].
        rewrite (app_PATCH_rejected _ _ _ _ _ _ _ Hg1 Hv2).
        rewrite (app_PATCH_rejected _ _ _ _ _ _ _ Hg Hv2).
        split; [reflexivity | discriminate].
    + destruct (validate_raises _ _ _ Hv1) as [errs ->].
      rewrite (app_PATCH_rejected _ _ _ _ _ _ _ Hg Hv1). cbn [snd].
      split; reflexivity.
  - rewrite (app_PATCH_missing _ _ _ p1 _ Hg). cbn [snd].
    split; reflexivity.
Qed.
Lemma later_update_overrides_earlier_witness :
  snd (app int_exact env_b (PATCH_todo id_a body_B)
         (snd (app int_exact env_a (PATCH_todo id_a body_A) store_A))) =
  snd (app int_exact env_b (PATCH_todo id_a body_B) store_A).
Proof.
  apply (proj2 (later_update_overrides_earlier int_exact env_a env_b id_a
                  body_A body_B store_A) model_B).
  reflexivity.
Defined.
(** ** Status codes *)

(** X5: on a store that satisfies the invariant no handler ends in an
    exception it is not written for: the response a route hands over to be
    written out carries one of its declared status codes, since the
    constructor call of an update always finds its title and the pop of a
    delete always finds its key.  The answer is then 500 only when that
    response cannot be serialised. *)
Theorem no_unexpected_exception int_lax e r s :
  store_inv s ->
  In (status (fst (route int_lax e r s))) (declared_statuses r) /\
  (status (fst (app int_lax e r s)) = 500%Z ->
   content_renderable (body (fst (route int_lax e r s))) = false).
Proof.
  intros Hs.
  assert (H : In (status (fst (route int_lax e r s))) (declared_statuses r)).
  { destruct r as [payload| |todo_id|todo_id payload|todo_id|].
    - destruct (validate_TodoCreate int_lax payload) as [m|ex] eqn:Hv.
      + rewrite (route_POST_ok _ _ _ _ _ Hv). cbn. tauto.
      + destruct (validate_raises _ _ _ Hv) as [errs ->].
        rewrite (route_POST_rejected _ _ _ _ _ Hv). cbn. tauto.
    - cbn. tauto.
    - destruct (dict_get todo_id s) as [t|] eqn:Hg.
      + rewrite (route_GET_found _ _ _ _ _ Hg). cbn. tauto.
      + rewrite (route_missing int_lax e todo_id s _ Hg); [cbn; tauto | auto].
    - destruct (dict_get todo_id s) as [t|] eqn:Hg.
      + destruct (validate_TodoCreate int_lax payload) as [m|ex] eqn:Hv.
        * rewrite (route_PATCH_ok _ _ _ _ _ _ _ Hg Hv). cbn. tauto.
        * destruct (validate_raises _ _ _ Hv) as [errs ->].
          rewrite (route_PATCH_rejected _ _ _ _ _ _ _ Hg Hv). cbn. tauto.
      + rewrite (route_missing int_lax e todo_id s _ Hg); [cbn; tauto | eauto].
    - destruct (dict_get todo_id s) as [t|] eqn:Hg.
      + pose proof (store_inv_id _ _ _ Hs Hg) as Hid.
        destruct (dict_pop_Some _ _ _ Hg) as [s' Hp].
        rewrite <- Hid in Hp.
        rewrite (route_DELETE_present _ _ _ _ _ Hg), Hp. cbn. tauto.
      + rewrite (route_missing int_lax e todo_id s _ Hg); [cbn; tauto | auto].
    - cbn. tauto. }
  split; [exact H |].
  rewrite app_route. cbn [fst]. unfold serialise.
  destruct (content_renderable (body (fst (route int_lax e r s))));
    [| reflexivity].
  intros E. rewrite E in H. exfalso.
  destruct r; cbn in H;
    unfold HTTP_200_OK, HTTP_201_CREATED, HTTP_204_NO_CONTENT,
      HTTP_404_NOT_FOUND, HTTP_422_UNPROCESSABLE_ENTITY in H;
    intuition discriminate.
Qed.

Lemma no_unexpected_exception_witness :
  In (status (fst (route int_exact env_b (DELETE_todo id_a) store_A)))
    (declared_statuses (DELETE_todo id_a)) /\
  (status (fst (app int_exact env_b (DELETE_todo id_a) store_A)) = 500%Z ->
   content_renderable
     (body (fst (route int_exact env_b (DELETE_todo id_a) store_A))) = false).
Proof.
  apply (no_unexpected_exception int_exact env_b (DELETE_todo id_a) store_A).
  exact store_A_inv.
Defined.

(** X6: a request that is answered with a client error (a status from 400
    to 499) leaves the store exactly as it was, whichever route it went to
    and whatever the store held: rejected bodies and missing ids write
    nothing. *)
Theorem client_errors_leave_store int_lax e r s :
  (400 <= status (fst (app int_lax e r s)) < 500)%Z ->
  snd (app int_lax e r s) = s.
Proof.
  assert (Habs : forall resp,
             (status resp < 400)%Z ->
             (400 <= status (serialise resp) < 500)%Z -> False).
  { intros resp Hlt H. destruct (serialise_status resp) as [E | E];
      rewrite E in H; [lia | unfold HTTP_500_INTERNAL_SERVER_ERROR in H; lia]. }
  destruct r as [payload| |todo_id|todo_id payload|todo_id|].
  - destruct (validate_TodoCreate int_lax payload) as [m|ex] eqn:Hv.
    + rewrite (app_POST_ok _ _ _ _ _ Hv). cbn [fst snd]. intros H.
      exfalso. revert H. apply Habs. cbn. unfold HTTP_201_CREATED. lia.
    + destruct (validate_raises _ _ _ Hv) as [errs ->].
      now rewrite (app_POST_rejected _ _ _ _ _ Hv).
  - reflexivity.
  - destruct (dict_get todo_id s) as [t|] eqn:Hg.
    + now rewrite (app_GET_found _ _ _ _ _ Hg).
    + now rewrite (app_GET_missing _ _ _ _ Hg).
  - destruct (dict_get todo_id s) as [t|] eqn:Hg.
    + destruct (validate_TodoCreate int_lax payload) as [m|ex] eqn:Hv.
      * rewrite (app_PATCH_ok _ _ _ _ _ _ _ Hg Hv). cbn [fst snd].
        intros H. exfalso. revert H. apply Habs. cbn.
        unfold HTTP_200_OK. lia.
      * destruct (validate_raises _ _ _ Hv) as [errs ->].
        now rewrite (app_PATCH_rejected _ _ _ _ _ _ _ Hg Hv).
    + now rewrite (app_PATCH_missing _ _ _ _ _ Hg).
  - destruct (dict_get todo_id s) as [t|] eqn:Hg.
    + rewrite (app_DELETE_present _ _ _ _ _ Hg).
      destruct (dict_pop (id t) s) as [[v s']|]; cbn [fst snd status].
      * unfold HTTP_204_NO_CONTENT. lia.
      * reflexivity.
    + now rewrite (app_DELETE_missing _ _ _ _ Hg).
  - reflexivity.
Qed.

Lemma client_errors_leave_store_witness :
  snd (app int_exact env_b (POST_todos (JObj [("title", JNull)])) store_A) =
  store_A.
Proof.
  apply (client_errors_leave_store int_exact env_b
           (POST_todos (JObj [("title", JNull)])) store_A).
  vm_compute. split; [discriminate | reflexivity].
Defined.

(** X13: a create request whose record cannot be serialised (a title or
    description holding a lone surrogate) is answered 500, yet the create
    handler has already stored the record; from then on the list route and
    a get of that id are answered 500 as well. *)
Theorem unserialisable_record_is_stored int_lax e e' payload m s :
  validate_TodoCreate int_lax payload = Ok m ->
  Todo_renderable (new_record (uuid4 e) (now e) m) = false ->
  app int_lax e (POST_todos payload) s =
  (mkResponse 500 CInternalError,
   dict_set (str_UUID (uuid4 e)) (new_record (uuid4 e) (now e) m) s) /\
  dict_get (str_UUID (uuid4 e))
    (dict_set (str_UUID (uuid4 e)) (new_record (uuid4 e) (now e) m) s) =
  Some (new_record (uuid4 e) (now e) m) /\
  fst (app int_lax e' GET_todos
         (dict_set (str_UUID (uuid4 e)) (new_record (uuid4 e) (now e) m) s)) =
  mkResponse 500 CInternalError /\
  fst (app int_lax e' (GET_todo (str_UUID (uuid4 e)))
         (dict_set (str_UUID (uuid4 e)) (new_record (uuid4 e) (now e) m) s)) =
  mkResponse 500 CInternalError.
Proof.
  intros Hv Hr.
  pose proof (dict_get_set_eq (str_UUID (uuid4 e))
                (new_record (uuid4 e) (now e) m) s) as Hg.
  split; [| split; [exact Hg | split]].
  - rewrite (app_POST_ok _ _ _ _ _ Hv).
    now rewrite serialise_not_renderable.
  - rewrite app_route, route_GET_todos. cbn [fst].
    apply serialise_not_renderable. cbn [body content_renderable].
    apply (forallb_false_In _ (new_record (uuid4 e) (now e) m)); [| exact Hr].
    apply dict_get_In in Hg. exact (in_map snd _ _ Hg).
  - rewrite (app_GET_found _ _ _ _ _ Hg). cbn [fst].
    now apply serialise_not_renderable.
Qed.

Lemma unserialisable_record_is_stored_witness :
  app int_exact env_b (POST_todos (JObj [("title", JStr lone_surrogate)]))
    store_A =
  (mkResponse 500 CInternalError,
   dict_set (str_UUID (uuid4 env_b))
     (new_record (uuid4 env_b) (now env_b)
        {| tc_title := lone_surrogate; tc_description := None;
           tc_priority := Some 1%Z; model_fields_set := ["title"] |})
     store_A).
Proof.
  apply (proj1 (unserialisable_record_is_stored int_exact env_b env_a
                  (JObj [("title", JStr lone_surrogate)])
                  {| tc_title := lone_surrogate; tc_description := None;
                     tc_priority := Some 1%Z; model_fields_set := ["title"] |}
                  store_A eq_refl eq_refl)).
Defined.

(** ** Keys and listing order *)

(** X7: the create handler does not look whether the id it drew is already
    a key.  If it is, the new record takes the place of the old one: the
    set and order of the keys stay as they were, and the record under that
    key is now the new one, not completed and stamped with the time of
    this request. *)
Theorem create_replaces_record_under_same_id int_lax e payload m old s :
  validate_TodoCreate int_lax payload = Ok m ->
  dict_get (str_UUID (uuid4 e)) s = Some old ->
  create_todo (uuid4 e) (now e) m s =
  (Ok (new_record (uuid4 e) (now e) m),
   dict_set (str_UUID (uuid4 e)) (new_record (uuid4 e) (now e) m) s) /\
  snd (app int_lax e (POST_todos payload) s) =
  dict_set (str_UUID (uuid4 e)) (new_record (uuid4 e) (now e) m) s /\
  dict_keys (snd (app int_lax e (POST_todos payload) s)) = dict_keys s /\
  dict_get (str_UUID (uuid4 e)) (snd (app int_lax e (POST_todos payload) s)) =
  Some (new_record (uuid4 e) (now e) m) /\
  completed (new_record (uuid4 e) (now e) m) = false /\
  created_at (new_record (uuid4 e) (now e) m) = now e.
Proof.
  intros Hv Hg. rewrite (app_POST_ok _ _ _ _ _ Hv). cbn [snd].
  split; [apply create_todo_eq |]. split; [reflexivity |].
  split; [| split; [| split; reflexivity]].
  - rewrite dict_set_keys. now rewrite Hg.
  - apply dict_get_set_eq.
Qed.

Lemma create_replaces_record_under_same_id_witness :
  dict_keys (snd (app int_exact env_a (POST_todos body_B) store_A)) =
  dict_keys store_A /\
  dict_get (str_UUID (uuid4 env_a))
    (snd (app int_exact env_a (POST_todos body_B) store_A)) =
  Some (new_record (uuid4 env_a) (now env_a) model_B).
Proof.
  pose proof (create_replaces_record_under_same_id int_exact env_a body_B
                model_B todo_A store_A eq_refl eq_refl) as H.
  split; [exact (proj1 (proj2 (proj2 H)))
         | exact (proj1 (proj2 (proj2 (proj2 H))))].
Defined.

(** X8: an update, accepted or not, never changes which ids the store
    holds nor the order in which they are listed. *)
Theorem update_keeps_keys_and_order int_lax e todo_id payload s :
  dict_keys (snd (app int_lax e (PATCH_todo todo_id payload) s)) =
  dict_keys s.
Proof.
  destruct (dict_get todo_id s) as [t|] eqn:Hg.
  - destruct (validate_TodoCreate int_lax payload) as [m|ex] eqn:Hv.
    + rewrite (app_PATCH_ok _ _ _ _ _ _ _ Hg Hv). cbn [snd].
      rewrite dict_set_keys. now rewrite Hg.
    + destruct (validate_raises _ _ _ Hv) as [errs ->].
      now rewrite (app_PATCH_rejected _ _ _ _ _ _ _ Hg Hv).
  - now rewrite (app_PATCH_missing _ _ _ _ _ Hg).
Qed.
(** X9: an accepted create request whose id is new to the store puts its
    record after all the others: the store is the old one followed by the
    new record, and the list handler then returns the old records followed
    by the new one. *)
Theorem create_appends_last int_lax e payload m s :
  validate_TodoCreate int_lax payload = Ok m ->
  dict_get (str_UUID (uuid4 e)) s = None ->
  snd (app int_lax e (POST_todos payload) s) =
  (s ++ [(str_UUID (uuid4 e), new_record (uuid4 e) (now e) m)])%list /\
  list_todos (snd (app int_lax e (POST_todos payload) s)) =
  (Ok (dict_values s ++ [new_record (uuid4 e) (now e) m])%list,
   snd (app int_lax e (POST_todos payload) s)).
Proof.
  intros Hv Hg. rewrite (app_POST_ok _ _ _ _ _ Hv). cbn [snd].
  rewrite (dict_set_fresh _ _ _ Hg). split; [reflexivity |].
  unfold list_todos, todos_values, dict_values. now rewrite map_app.
Qed.

Lemma create_appends_last_witness :
  snd (app int_exact env_b (POST_todos body_B) store_A) =
  (store_A ++ [(str_UUID (uuid4 env_b),
                new_record (uuid4 env_b) (now env_b) model_B)])%list /\
  list_todos (snd (app int_exact env_b (POST_todos body_B) store_A)) =
  (Ok (dict_values store_A ++
       [new_record (uuid4 env_b) (now env_b) model_B])%list,
   snd (app int_exact env_b (POST_todos body_B) store_A)).
Proof.
  apply (create_appends_last int_exact env_b body_B model_B store_A);
    reflexivity.
Defined.

(** ** Records a request is not about *)

(** X10: on a store that satisfies the invariant, a request changes at
    most the entry under the key it writes to (the path id of an update or
    delete, the generated id of a create): every other id looks up exactly
    as before, and the reading routes change no entry at all. *)
Theorem other_records_are_untouched int_lax e r s k :
  store_inv s ->
  written_key e r <> Some k ->
  dict_get k (snd (app int_lax e r s)) = dict_get k s.
Proof.
  intros Hs Hk.
  destruct r as [payload| |todo_id|todo_id payload|todo_id|];
    cbn [written_key] in Hk.
  - destruct (validate_TodoCreate int_lax payload) as [m|ex] eqn:Hv.
    + rewrite (app_POST_ok _ _ _ _ _ Hv). cbn [snd].
      apply dict_get_set_ne. congruence.
    + destruct (validate_raises _ _ _ Hv) as [errs ->].
      now rewrite (app_POST_rejected _ _ _ _ _ Hv).
  - reflexivity.
  - destruct (dict_get todo_id s) as [t|] eqn:Hg.
    + now rewrite (app_GET_found _ _ _ _ _ Hg).
    + now rewrite (app_GET_missing _ _ _ _ Hg).
  - destruct (dict_get todo_id s) as [t|] eqn:Hg.
    + destruct (validate_TodoCreate int_lax payload) as [m|ex] eqn:Hv.
      * rewrite (app_PATCH_ok _ _ _ _ _ _ _ Hg Hv). cbn [snd].
        apply dict_get_set_ne. congruence.
      * destruct (validate_raises _ _ _ Hv) as [errs ->].
        now rewrite (app_PATCH_rejected _ _ _ _ _ _ _ Hg Hv).
    + now rewrite (app_PATCH_missing _ _ _ _ _ Hg).
  - destruct (dict_get todo_id s) as [t|] eqn:Hg.
    + pose proof (store_inv_id _ _ _ Hs Hg) as Hid.
      destruct (dict_pop_Some _ _ _ Hg) as [s' Hp].
      assert (Hp' : dict_pop (id t) s = Some (t, s')) by now rewrite Hid.
      rewrite (app_DELETE_found _ _ _ _ _ _ Hg Hp'). cbn [snd].
      apply (dict_pop_get_ne _ _ _ _ _ Hp). congruence.
    + now rewrite (app_DELETE_missing _ _ _ _ Hg).
  - reflexivity.
Qed.
Lemma other_records_are_untouched_witness :
  dict_get id_a (snd (app int_exact env_b (DELETE_todo id_b) store_A)) =
  dict_get id_a store_A.
Proof.
  apply (other_records_are_untouched int_exact env_b (DELETE_todo id_b)
           store_A id_a).
  - split.
    + repeat constructor. simpl. tauto.
    + repeat constructor.
  - discriminate.
Defined.
(** ** Members the model does not declare *)

(** X11: a member of the request body whose name is none of title,
    description and priority changes neither whether the body is accepted,
    nor the model it validates to, nor the store a create or an update
    leaves; and when the body is accepted, the whole answer is that of the
    same request without the member. *)
Theorem undeclared_members_are_ignored int_lax e k v l1 l2 s :
  k <> "title" -> k <> "description" -> k <> "priority" ->
  (forall m,
     validate_TodoCreate int_lax (JObj (l1 ++ (k, v) :: l2)%list) = Ok m <->
     validate_TodoCreate int_lax (JObj (l1 ++ l2)%list) = Ok m) /\
  snd (app int_lax e (POST_todos (JObj (l1 ++ (k, v) :: l2)%list)) s) =
  snd (app int_lax e (POST_todos (JObj (l1 ++ l2)%list)) s) /\
  (forall todo_id,
     snd (app int_lax e
            (PATCH_todo todo_id (JObj (l1 ++ (k, v) :: l2)%list)) s) =
     snd (app int_lax e (PATCH_todo todo_id (JObj (l1 ++ l2)%list)) s)) /\
  (forall m,
     validate_TodoCreate int_lax (JObj (l1 ++ l2)%list) = Ok m ->
     app int_lax e (POST_todos (JObj (l1 ++ (k, v) :: l2)%list)) s =
     app int_lax e (POST_todos (JObj (l1 ++ l2)%list)) s /\
     (forall todo_id,
        app int_lax e (PATCH_todo todo_id (JObj (l1 ++ (k, v) :: l2)%list)) s
        = app int_lax e (PATCH_todo todo_id (JObj (l1 ++ l2)%list)) s)).
Proof.
  intros H1 H2 H3.
  split; [intros m; now apply validate_ignores_member |].
  destruct (app_snd_ignores_member int_lax e k v l1 l2 s H1 H2 H3)
    as [Hpost Hpatch].
  split; [exact Hpost |]. split; [exact Hpatch |].
  intros m Hv.
  assert (Hw : validate_TodoCreate int_lax
                 (JObj (l1 ++ (k, v) :: l2)%list) = Ok m).
  { now apply validate_ignores_member. }
  split.
  - now rewrite (app_POST_ok _ _ _ _ _ Hv), (app_POST_ok _ _ _ _ _ Hw).
  - intros todo_id. destruct (dict_get todo_id s) as [t|] eqn:Hg.
    + now rewrite (app_PATCH_ok _ _ _ _ _ _ _ Hg Hv),
        (app_PATCH_ok _ _ _ _ _ _ _ Hg Hw).
    + now rewrite !(app_PATCH_missing _ _ _ _ _ Hg).
Qed.

Lemma undeclared_members_are_ignored_witness :
  app int_exact env_b
    (POST_todos (JObj [("title", JStr "B"); ("id", JStr "mine")])) store_A =
  app int_exact env_b (POST_todos (JObj [("title", JStr "B")])) store_A.
Proof.
  apply (proj1 (proj2 (proj2 (proj2
           (undeclared_members_are_ignored int_exact env_b
              "id" (JStr "mine") [("title", JStr "B")] [] store_A
              ltac:(discriminate) ltac:(discriminate)
              ltac:(discriminate)))) model_B eq_refl)).
Defined.

(** ** Completion *)

Lemma not_completed_app int_lax e r s :
  Forall (fun kv => completed (snd kv) = false) s ->
  Forall (fun kv => completed (snd kv) = false) (snd (app int_lax e r s)).
Proof.
  intros Hs.
  assert (Hset : forall k v,
             completed v = false ->
             Forall (fun kv => completed (snd kv) = false) (dict_set k v s)).
  { intros k v Hv. rewrite Forall_forall in *. intros x Hx.
    destruct (dict_set_In _ _ _ _ Hx) as [-> | Hin]; auto. }
  destruct r as [payload| |todo_id|todo_id payload|todo_id|].
  - destruct (validate_TodoCreate int_lax payload) as [m|ex] eqn:Hv.
    + rewrite (app_POST_ok _ _ _ _ _ Hv). cbn [snd]. now apply Hset.
    + destruct (validate_raises _ _ _ Hv) as [errs ->].
      now rewrite (app_POST_rejected _ _ _ _ _ Hv).
  - exact Hs.
  - destruct (dict_get todo_id s) as [t|] eqn:Hg.
    + now rewrite (app_GET_found _ _ _ _ _ Hg).
    + now rewrite (app_GET_missing _ _ _ _ Hg).
  - destruct (dict_get todo_id s) as [t|] eqn:Hg.
    + destruct (validate_TodoCreate int_lax payload) as [m|ex] eqn:Hv.
      * rewrite (app_PATCH_ok _ _ _ _ _ _ _ Hg Hv). cbn [snd].
        apply Hset. cbn [completed replacement].
        rewrite Forall_forall in Hs.
        exact (Hs _ (dict_get_In _ _ _ Hg)).
      * destruct (validate_raises _ _ _ Hv) as [errs ->].
        now rewrite (app_PATCH_rejected _ _ _ _ _ _ _ Hg Hv).
    + now rewrite (app_PATCH_missing _ _ _ _ _ Hg).
  - destruct (dict_get todo_id s) as [t|] eqn:Hg.
    + rewrite (app_DELETE_present _ _ _ _ _ Hg).
      destruct (dict_pop (id t) s) as [[v s']|] eqn:Hp; cbn [snd];
        [| exact Hs].
      destruct (dict_pop_split _ _ _ _ Hp) as (l1 & l2 & -> & -> & _).
      rewrite Forall_forall in *. intros x Hx. apply Hs.
      apply in_app_or in Hx. apply in_or_app. simpl. tauto.
    + now rewrite (app_DELETE_missing _ _ _ _ Hg).
  - exact Hs.
Qed.

Lemma not_completed_serve int_lax reqs :
  forall s,
    Forall (fun kv => completed (snd kv) = false) s ->
    Forall (fun kv => completed (snd kv) = false)
      (snd (serve int_lax reqs s)).
Proof.
  induction reqs as [|[e r] reqs IH]; intros s Hs; simpl; [exact Hs |].
  pose proof (not_completed_app int_lax e r s Hs) as Hs'.
  destruct (app int_lax e r s) as [resp s'].
  specialize (IH s' Hs').
  now destruct (serve int_lax reqs s') as [resps s''].
Qed.
(** X12: no sequence of requests ever completes a todo.  A create stores
    completed false, an update copies the stored value, and nothing else
    writes a record; so after any session that starts from the empty
    store, every record in the store, and so every record the list handler
    returns, has completed false. *)
Theorem no_session_completes_a_todo int_lax reqs :
  Forall (fun t => completed t = false)
    (dict_values (snd (serve int_lax reqs todos_init))) /\
  exists listed,
    list_todos (snd (serve int_lax reqs todos_init)) =
    (Ok listed, snd (serve int_lax reqs todos_init)) /\
    Forall (fun t => completed t = false) listed.
Proof.
  assert (H : Forall (fun t => completed t = false)
                (dict_values (snd (serve int_lax reqs todos_init)))).
  { pose proof (not_completed_serve int_lax reqs todos_init
                  (Forall_nil _)) as H.
    unfold dict_values. rewrite Forall_forall in *.
    intros t Hin. apply in_map_iff in Hin.
    destruct Hin as (kv & <- & Hin). now apply H. }
  split; [exact H |].
  exists (dict_values (snd (serve int_lax reqs todos_init))).
  split; [reflexivity | exact H].
Qed.
